(** * Audit-log change formatter and cascade tracker

    A shallow embedding of the change formatter (identifier classifier,
    [deepEqual], [extractMeaningfulChanges], [formatChanges],
    [shouldLogChanges]) and of the audit context tracker
    ([AuditContextManager] and the request helpers around it), followed by
    the properties established about them. *)

From Stdlib Require Import ZArith List String Ascii Bool Lia DecimalString.
From stdpp Require Import base strings gmap.

Set Warnings "-register-all".
Local Open Scope Z_scope.
Local Open Scope string_scope.
Import ListNotations.

(** ** JavaScript values

    Snapshots are tree-shaped JSON-like values.  Numbers are integers (the
    code only tests them for equality and truthiness and serialises them),
    together with [NaN], the one value that is not strictly equal to
    itself.
    A keyed map is an association list in insertion order: [Object.keys]
    lists the keys in that order and a property read returns the first
    binding; only own properties are modelled. *)

Module Js.

Inductive value : Type :=
| VUndef
| VNull
| VBool (b : bool)
| VNum (n : Z)
| VNaN
| VStr (s : string)
| VArr (items : list value)
| VObj (fields : list (string * value)).

Inductive jstype : Type := TUndefined | TObject | TBoolean | TNumber | TString.

Definition jstype_eqb (s t : jstype) : bool :=
  match s, t with
  | TUndefined, TUndefined | TObject, TObject | TBoolean, TBoolean
  | TNumber, TNumber | TString, TString => true
  | _, _ => false
  end.

(** [typeof v]; note that [typeof null] and [typeof []] are both 'object'. *)
Definition typeof (v : value) : jstype :=
  match v with
  | VUndef => TUndefined
  | VNull | VArr _ | VObj _ => TObject
  | VBool _ => TBoolean
  | VNum _ | VNaN => TNumber
  | VStr _ => TString
  end.

Definition is_string (v : value) : bool := jstype_eqb (typeof v) TString.
Definition is_object (v : value) : bool := jstype_eqb (typeof v) TObject.

(** [Array.isArray v] *)
Definition is_array (v : value) : bool :=
  match v with VArr _ => true | _ => false end.

(** [v == null] *)
Definition is_nullish (v : value) : bool :=
  match v with VUndef | VNull => true | _ => false end.

(** [Boolean(v)] *)
Definition truthy (v : value) : bool :=
  match v with
  | VUndef | VNull | VNaN => false
  | VBool b => b
  | VNum n => negb (n =? 0)%Z
  | VStr s => negb (String.eqb s "")
  | VArr _ | VObj _ => true
  end.

Fixpoint lookup_field (k : string) (fs : list (string * value)) : option value :=
  match fs with
  | [] => None
  | (k', v) :: fs' => if String.eqb k k' then Some v else lookup_field k fs'
  end.

(** [v?.[k]] for a field name [k]: the bound value on a keyed map,
    [undefined] on a missing key and on every other value. *)
Definition get (v : value) (k : string) : value :=
  match v with
  | VObj fs => match lookup_field k fs with Some x => x | None => VUndef end
  | _ => VUndef
  end.

(** [k in v] for an object-typed, non-null [v]. *)
Definition has_key (k : string) (v : value) : bool :=
  match v with
  | VObj fs => match lookup_field k fs with Some _ => true | None => false end
  | _ => false
  end.

(** [Object.keys v] on a keyed map. *)
Definition own_keys (v : value) : list string :=
  match v with VObj fs => map fst fs | _ => [] end.

Definition elements (v : value) : list value :=
  match v with VArr l => l | _ => [] end.

(** [v[i]] on an array. *)
Definition at_index (v : value) (i : nat) : value := nth i (elements v) VUndef.

(** [o[k] = c] on a keyed map under construction. *)
Fixpoint obj_set (fs : list (string * value)) (k : string) (c : value)
  : list (string * value) :=
  match fs with
  | [] => [(k, c)]
  | (k', v) :: fs' =>
      if String.eqb k k' then (k', c) :: fs' else (k', v) :: obj_set fs' k c
  end.

(** [keys.includes(k)] on strings. *)
Definition includes_key (k : string) (keys : list string) : bool :=
  List.existsb (String.eqb k) keys.

(** [Array.from(new Set(keys))]: first occurrences, in order. *)
Fixpoint unique_from (seen keys : list string) : list string :=
  match keys with
  | [] => []
  | k :: keys' =>
      if includes_key k seen then unique_from seen keys'
      else k :: unique_from (k :: seen) keys'
  end.

Definition unique (keys : list string) : list string := unique_from [] keys.

(** *** [JSON.stringify] *)

Definition hex_digit (n : N) : ascii :=
  ascii_of_N (if (n <? 10)%N then 48 + n else 87 + n)%N.

Definition escape_char (c : ascii) : string :=
  let n := N_of_ascii c in
  if (n =? 34)%N then String (ascii_of_N 92) (String (ascii_of_N 34) "")
  else if (n =? 92)%N then "\\"
  else if (n =? 8)%N then "\b"
  else if (n =? 9)%N then "\t"
  else if (n =? 10)%N then "\n"
  else if (n =? 12)%N then "\f"
  else if (n =? 13)%N then "\r"
  else if (n <? 32)%N then
    "\u00" +:+ String (hex_digit (n / 16)) (String (hex_digit (n mod 16)) "")
  else String c "".

Fixpoint escape (s : string) : string :=
  match s with
  | EmptyString => ""
  | String c s' => escape_char c +:+ escape s'
  end.

Definition quote (s : string) : string :=
  String (ascii_of_N 34) (escape s +:+ String (ascii_of_N 34) "").

Definition string_of_Z (n : Z) : string := NilZero.string_of_int (Z.to_int n).

Fixpoint join (sep : string) (parts : list string) : string :=
  match parts with
  | [] => ""
  | [p] => p
  | p :: ps => p +:+ sep +:+ join sep ps
  end.

(** [undefined] is [None]; inside an array an unserialisable element prints
    as [null], inside a keyed map its key is left out.  [NaN] prints as
    [null]. *)
Fixpoint json_stringify (v : value) : option string :=
  match v with
  | VUndef => None
  | VNull | VNaN => Some "null"
  | VBool true => Some "true"
  | VBool false => Some "false"
  | VNum n => Some (string_of_Z n)
  | VStr s => Some (quote s)
  | VArr l =>
      let item x := match json_stringify x with Some s => s | None => "null" end in
      Some ("[" +:+ join "," (map item l) +:+ "]")
  | VObj fs =>
      let fix members (fs : list (string * value)) : list string :=
        match fs with
        | [] => []
        | (k, x) :: fs' =>
            match json_stringify x with
            | Some s => (quote k +:+ ":" +:+ s) :: members fs'
            | None => members fs'
            end
        end in
      Some ("{" +:+ join "," (members fs) +:+ "}")
  end.

(** [s === t] on the results of [JSON.stringify]. *)
Definition opt_string_eqb (s t : option string) : bool :=
  match s, t with
  | None, None => true
  | Some x, Some y => String.eqb x y
  | _, _ => false
  end.

(** *** Strict equality

    On primitives [===] compares values, and [NaN] is equal to nothing,
    itself included.  On arrays and keyed maps it compares references,
    which a tree-shaped value does not carry: the answer is read from
    [same_ref], left open so that every result below holds for whatever
    sharing there is between the two snapshots. *)

Section StrictEquality.
Variable same_ref : value -> value -> bool.

Definition strict_eq (a b : value) : bool :=
  match a, b with
  | VUndef, VUndef => true
  | VNull, VNull => true
  | VBool x, VBool y => Bool.eqb x y
  | VNum x, VNum y => (x =? y)%Z
  | VStr x, VStr y => String.eqb x y
  | VArr _, VArr _ | VObj _, VObj _ => same_ref a b
  | _, _ => false
  end.

(** The comparison of [Array.prototype.includes] (SameValueZero): strict
    equality, except that [NaN] is found in an array that holds it. *)
Definition same_value_zero (a b : value) : bool :=
  match a, b with
  | VNaN, VNaN => true
  | _, _ => strict_eq a b
  end.

(** [ids.includes(id)] *)
Definition includes (id : value) (ids : list value) : bool :=
  List.existsb (fun x => same_value_zero x id) ids.
End StrictEquality.

(** *** [String(v)] and [a ?? b] *)

(** [String(v)]: an array prints its elements joined by commas, with
    [null] and [undefined] elements printed as the empty string; a keyed
    map prints as [[object Object]]. *)
Fixpoint to_String (v : value) : string :=
  match v with
  | VUndef => "undefined"
  | VNull => "null"
  | VBool true => "true"
  | VBool false => "false"
  | VNum n => string_of_Z n
  | VNaN => "NaN"
  | VStr s => s
  | VArr l =>
      let item x := if is_nullish x then "" else to_String x in
      join "," (map item l)
  | VObj _ => "[object Object]"
  end.

(** [a ?? b] *)
Definition nullish_or (a b : value) : value := if is_nullish a then b else a.

(** Two snapshots that were materialised separately share no node. *)
Definition no_sharing (a b : value) : bool := false.

(** No [NaN] anywhere in the value: what every snapshot read back from
    JSON satisfies. *)
Fixpoint nan_free (v : value) : bool :=
  match v with
  | VNaN => false
  | VArr l => forallb nan_free l
  | VObj fs => forallb (fun p => nan_free (snd p)) fs
  | _ => true
  end.

End Js.

(** ** The change formatter *)

Module ChangeFormatter.
Import Js.

(** A field is [None] when the options object does not carry it. *)
Record ChangeFormatterOptions : Type := {
  excludeFields : option (list string);
  meaningfulChangesOnly : option bool;
  maxDepth : option Z
}.

Definition defaultChangeFormatterOptions : ChangeFormatterOptions := {|
  excludeFields := Some [
    "id"; "createdAt"; "updatedAt"; "createdBy"; "updatedBy";
    "sessions"; "password"; "token"; "secret"; "hash"; "salt";
    "lockUntil"; "loginAttempts"; "resetPasswordToken"; "resetPasswordExpiration";
    "lastLogin"; "lastLoginAt"; "emailVerified"; "emailVerificationToken";
    "emailVerificationExpiration"; "forgotPasswordToken"; "forgotPasswordExpiration"
  ];
  meaningfulChangesOnly := Some true;
  maxDepth := Some 2
|}.

(** [{ ...defaults, ...options }]: a field that [options] carries wins. *)
Definition spread (defaults options : ChangeFormatterOptions)
  : ChangeFormatterOptions := {|
  excludeFields :=
    match excludeFields options with Some x => Some x | None => excludeFields defaults end;
  meaningfulChangesOnly :=
    match meaningfulChangesOnly options with
    | Some x => Some x | None => meaningfulChangesOnly defaults end;
  maxDepth :=
    match maxDepth options with Some x => Some x | None => maxDepth defaults end
|}.

(** *** Identifier classifier *)

Definition in_range (lo hi : N) (c : ascii) : bool :=
  let n := N_of_ascii c in ((lo <=? n) && (n <=? hi))%N.

Definition is_digit (c : ascii) : bool := in_range 48 57 c.
Definition is_lower (c : ascii) : bool := in_range 97 122 c.
Definition is_upper (c : ascii) : bool := in_range 65 90 c.

(** [[0-9a-f]] under the [i] flag *)
Definition is_hex (c : ascii) : bool :=
  is_digit c || in_range 97 102 c || in_range 65 70 c.

(** [[a-zA-Z0-9_-]] *)
Definition is_token_char (c : ascii) : bool :=
  is_lower c || is_upper c || is_digit c
  || (N_of_ascii c =? 95)%N || (N_of_ascii c =? 45)%N.

(** Consumes exactly [n] hexadecimal characters. *)
Fixpoint take_hex (n : nat) (s : string) : option string :=
  match n with
  | O => Some s
  | S n' =>
      match s with
      | String c s' => if is_hex c then take_hex n' s' else None
      | EmptyString => None
      end
  end.

(** Runs of hexadecimal characters of the given lengths, joined by ['-'],
    spanning the whole string. *)
Fixpoint hex_groups (groups : list nat) (s : string) : bool :=
  match groups with
  | [] => false
  | [n] => match take_hex n s with Some EmptyString => true | _ => false end
  | n :: groups' =>
      match take_hex n s with
      | Some (String c s') => (N_of_ascii c =? 45)%N && hex_groups groups' s'
      | _ => false
      end
  end.

Fixpoint all_chars (p : ascii -> bool) (s : string) : bool :=
  match s with
  | EmptyString => true
  | String c s' => p c && all_chars p s'
  end.

Definition uuidRegex (str : string) : bool := hex_groups [8; 4; 4; 4; 12]%nat str.
Definition objectIdRegex (str : string) : bool := hex_groups [24%nat] str.
Definition genericIdRegex (str : string) : bool :=
  all_chars is_token_char str && (8 <=? String.length str)%nat.

Definition isUUID (str : string) : bool :=
  uuidRegex str || objectIdRegex str || genericIdRegex str.

(** An identifier string or a non-null object bearing an [id] key. *)
Definition id_like (item : value) : bool :=
  match item with
  | VStr s => isUUID s
  | _ => is_object item && negb (is_nullish item) && has_key "id" item
  end.

Definition isRelationshipField (key : string) (v : value) : bool :=
  if match v with VStr s => isUUID s | _ => false end then true
  else if is_object v && negb (is_nullish v) && has_key "id" v then true
  else if is_array v && (0 <? length (elements v))%nat then
    List.forallb id_like (elements v)
  else false.

(** [typeof v === 'string' ? v : v?.id] *)
Definition id_of (v : value) : value :=
  if is_string v then v else get v "id".

(** [item !== null] *)
Definition not_null (v : value) : bool :=
  match v with VNull => false | _ => true end.

Section Differ.
Variable same_ref : value -> value -> bool.

(** *** [deepEqual]

    Every recursive call is one level deeper and the function stops
    descending once [depth > maxDepth], so [maxDepth + 1 - depth] levels
    of recursion are all that a call can use; [fuel] counts them.  The
    [O] case under the depth test is never reached from [deepEqual] and
    [extractMeaningfulChanges], which satisfy the recursion equations of
    the source ([deepEqual_unfold], [extractMeaningfulChanges_unfold]). *)

Fixpoint deepEqual_fuel (fuel : nat) (a b : value) (depth maxDepth : Z) : bool :=
  if depth >? maxDepth then
    opt_string_eqb (json_stringify a) (json_stringify b)
  else
    match fuel with
    | O => false
    | S fuel' =>
        if strict_eq same_ref a b then true
        else if is_nullish a || is_nullish b then strict_eq same_ref a b
        else if negb (jstype_eqb (typeof a) (typeof b)) then false
        else if is_object a then
          if negb (Bool.eqb (is_array a) (is_array b)) then false
          else if is_array a then
            if negb (length (elements a) =? length (elements b))%nat then false
            else
              List.forallb
                (fun i => deepEqual_fuel fuel' (at_index a i) (at_index b i)
                            (depth + 1) maxDepth)
                (seq 0 (length (elements a)))
          else
            let keysA := own_keys a in
            let keysB := own_keys b in
            if negb (length keysA =? length keysB)%nat then false
            else
              List.forallb
                (fun key =>
                   includes_key key keysB
                   && deepEqual_fuel fuel' (get a key) (get b key)
                        (depth + 1) maxDepth)
                keysA
        else false
    end.

Definition levels (depth maxDepth : Z) : nat := Z.to_nat (maxDepth + 1 - depth).

Definition deepEqual (a b : value) (depth maxDepth : Z) : bool :=
  deepEqual_fuel (levels depth maxDepth) a b depth maxDepth.

(** *** [extractMeaningfulChanges] *)

(** The populated/unpopulated relationship test shared by the differ and
    the formatter. *)
Definition same_relationship (newVal oldVal : value) : bool :=
  (is_string newVal && is_object oldVal && strict_eq same_ref (get oldVal "id") newVal)
  || (is_string oldVal && is_object newVal && strict_eq same_ref (get newVal "id") oldVal).

(** One pass of a [for (const key of allKeys)] loop: [None] is
    [continue], [Some c] is [result[key] = c; hasChanges = true]. *)
Definition record_change (acc : list (string * value) * bool) (key : string)
    (change : option value) : list (string * value) * bool :=
  match change with
  | None => acc
  | Some c => (obj_set (fst acc) key c, true)
  end.

Definition for_keys (body : string -> option value) (allKeys : list string)
  : list (string * value) * bool :=
  fold_left (fun acc key => record_change acc key (body key)) allKeys ([], false).

Definition finish (acc : list (string * value) * bool) : value :=
  if snd acc then VObj (fst acc) else VNull.

Definition ids_of (v : value) : list value :=
  List.filter truthy (map id_of (elements v)).

Definition is_scalar (item : value) : bool :=
  match typeof item with TString | TNumber | TBoolean => true | _ => false end.

(** The body of the differ's loop over the keys of two keyed maps;
    [recurse] is the recursive call at [depth + 1]. *)
Definition diff_key (recurse : value -> value -> value)
    (newValue oldValue : value) (excludeFields : list string) (key : string)
  : option value :=
  if includes_key key excludeFields then None
  else
    let newVal := get newValue key in
    let oldVal := get oldValue key in
    if same_relationship newVal oldVal then None
    else if isRelationshipField key newVal || isRelationshipField key oldVal then
      let newId := id_of newVal in
      let oldId := id_of oldVal in
      if truthy newId && truthy oldId && negb (strict_eq same_ref newId oldId)
      then Some (VObj [("old", oldId); ("new", newId)])
      else None
    else
      let change := recurse newVal oldVal in
      if not_null change then Some change else None.

Fixpoint extract_fuel (fuel : nat) (newValue oldValue : value)
    (depth maxDepth : Z) (excludeFields : list string) : value :=
  if depth >? maxDepth then VNull
  else
    match fuel with
    | O => VNull
    | S fuel' =>
        if deepEqual newValue oldValue depth maxDepth then VNull
        else if is_nullish newValue || is_nullish oldValue then newValue
        else if negb (is_object newValue) || negb (is_object oldValue) then newValue
        else if is_array newValue && is_array oldValue then
          if negb (length (elements newValue) =? length (elements oldValue))%nat
          then newValue
          else
            let newIds := ids_of newValue in
            let oldIds := ids_of oldValue in
            if (length newIds =? length oldIds)%nat
               && List.forallb (fun id => includes same_ref id oldIds) newIds
            then VNull
            else
              let hasChangedItems :=
                List.existsb
                  (fun index =>
                     let item := at_index newValue index in
                     let oldItem := at_index oldValue index in
                     if is_scalar item then negb (strict_eq same_ref item oldItem)
                     else negb (deepEqual item oldItem (depth + 1) maxDepth))
                  (seq 0 (length (elements newValue))) in
              if hasChangedItems then newValue else VNull
        else if is_array newValue || is_array oldValue then newValue
        else
          let allKeys := unique (own_keys newValue ++ own_keys oldValue)%list in
          finish (for_keys
            (diff_key
               (fun newVal oldVal =>
                  extract_fuel fuel' newVal oldVal (depth + 1) maxDepth excludeFields)
               newValue oldValue excludeFields)
            allKeys)
    end.

Definition extractMeaningfulChanges (newValue oldValue : value)
    (depth maxDepth : Z) (excludeFields : list string) : value :=
  extract_fuel (levels depth maxDepth) newValue oldValue depth maxDepth excludeFields.

(** *** [formatChanges]

    [newDoc] is the new snapshot; [oldDoc] is [None] when the previous
    snapshot is absent (null or undefined). *)

(** [n || 5] *)
Definition or_default (n : option Z) (d : Z) : Z :=
  match n with
  | Some x => if (x =? 0)%Z then d else x
  | None => d
  end.

Definition flag (b : option bool) : bool :=
  match b with Some x => x | None => false end.

(** [list?.includes(key)], falsy when the list is absent *)
Definition opt_includes (l : option (list string)) (key : string) : bool :=
  match l with Some l => includes_key key l | None => false end.

Definition change_record (oldV newV : value) : value :=
  VObj [("old", oldV); ("new", newV)].

(** The body of the formatter's loop over the top-level keys. *)
Definition format_key (opts : ChangeFormatterOptions)
    (newDoc oldDoc : value) (key : string) : option value :=
  if opt_includes (excludeFields opts) key then None
  else
    let newValue := get newDoc key in
    let oldValue := get oldDoc key in
    if same_relationship newValue oldValue then None
    else if flag (meaningfulChangesOnly opts) then
      let meaningfulChange :=
        extractMeaningfulChanges newValue oldValue 0
          (or_default (maxDepth opts) 5)
          (match excludeFields opts with Some l => l | None => [] end) in
      if not_null meaningfulChange
      then Some (change_record oldValue meaningfulChange)
      else None
    else if negb (deepEqual newValue oldValue 0 (or_default (maxDepth opts) 5))
    then Some (change_record oldValue newValue)
    else None.

Definition formatChanges (newDoc : list (string * value))
    (oldDoc : option (list (string * value)))
    (options : ChangeFormatterOptions) : value :=
  let opts := spread defaultChangeFormatterOptions options in
  match oldDoc with
  | None => VObj newDoc
  | Some oldDoc =>
      let allKeys :=
        unique (own_keys (VObj newDoc) ++ own_keys (VObj oldDoc))%list in
      finish (for_keys (format_key opts (VObj newDoc) (VObj oldDoc)) allKeys)
  end.
End Differ.

(** *** [shouldLogChanges]

    [changes] has the declared type [Record<string, any> | null]: [None] is
    [null].  [minChanges] is [None] when the argument is left out, and then
    defaults to 1. *)
Definition shouldLogChanges (changes : option (list (string * value)))
    (minChanges : option Z) : bool :=
  let minChanges := match minChanges with Some m => m | None => 1 end in
  match changes with
  | None => false
  | Some fields =>
      let changeCount := Z.of_nat (length (own_keys (VObj fields))) in
      (changeCount >=? minChanges)%Z
  end.

(** The value [formatChanges] returns, read at that declared type. *)
Definition as_change_set (v : value) : option (list (string * value)) :=
  match v with VObj fields => Some fields | _ => None end.

(** *** [createChangeSummary] *)
Definition createChangeSummary (changes : option (list (string * value))) : string :=
  match changes with
  | None => "No changes"
  | Some fields =>
      let changeCount := Z.of_nat (length (own_keys (VObj fields))) in
      let fields := join ", " (own_keys (VObj fields)) in
      string_of_Z changeCount +:+ " field(s) changed: " +:+ fields
  end.

End ChangeFormatter.

(** ** The audit context tracker *)

Module AuditContext.
Import Js.

Record AuditContext : Type := {
  sourceCollection : option string;
  sourceDocumentId : option string;
  isDirectOperation : option bool;
  timestamp : option Z;
  operationStack : option (list string)
}.

(** The two private maps of the class. *)
Record AuditContextManager : Type := {
  contexts : gmap string AuditContext;
  requestContexts : gmap string string
}.

Record LogOptions : Type := {
  allowCascading : option bool;
  maxCascadeDepth : option Z
}.

(** The request object, as far as the tracker reads and writes it. *)
Record Request : Type := { auditRequestId : option string }.

(** [Date.now()] and the random suffix are inputs of the model. *)
Record Clock : Type := { now : Z; random_suffix : string }.

Definition empty_manager : AuditContextManager :=
  {| contexts := ∅; requestContexts := ∅ |}.

Definition createContext (mgr : AuditContextManager) (clock : Clock)
    (requestId : string) (sourceCollection sourceDocumentId : option string)
  : AuditContextManager * AuditContext :=
  let context := {|
    sourceCollection := sourceCollection;
    sourceDocumentId := sourceDocumentId;
    isDirectOperation := Some true;
    timestamp := Some (now clock);
    operationStack := Some []
  |} in
  ({| contexts := <[requestId := context]> (contexts mgr);
      requestContexts := requestContexts mgr |}, context).

Definition getContext (mgr : AuditContextManager) (requestId : string)
  : option AuditContext :=
  contexts mgr !! requestId.

Definition markAsCascading (mgr : AuditContextManager)
    (requestId collection documentId : string) : AuditContextManager :=
  match contexts mgr !! requestId with
  | Some context =>
      let stack := match operationStack context with Some s => s | None => [] end in
      let context' := {|
        sourceCollection := sourceCollection context;
        sourceDocumentId := sourceDocumentId context;
        isDirectOperation := Some false;
        timestamp := timestamp context;
        operationStack := Some (stack ++ [collection +:+ ":" +:+ documentId])%list
      |} in
      {| contexts := <[requestId := context']> (contexts mgr);
         requestContexts := requestContexts mgr |}
  | None => mgr
  end.

(** [field === s] for an optional string field *)
Definition field_is (field : option string) (s : string) : bool :=
  match field with Some x => String.eqb x s | None => false end.

Definition shouldLogOperation (mgr : AuditContextManager)
    (requestId collection documentId : string) (options : LogOptions) : bool :=
  match contexts mgr !! requestId with
  | None => true
  | Some context =>
      if field_is (sourceCollection context) collection
         && field_is (sourceDocumentId context) documentId
      then true
      else if negb (match allowCascading options with Some b => b | None => false end)
      then false
      else
        let maxDepth :=
          match maxCascadeDepth options with
          | Some n => if (n =? 0)%Z then 1 else n
          | None => 1
          end in
        match operationStack context with
        | Some stack =>
            if (Z.of_nat (length stack) >=? maxDepth)%Z then false else true
        | None => true
        end
  end.

Definition clearContext (mgr : AuditContextManager) (requestId : string)
  : AuditContextManager :=
  {| contexts := delete requestId (contexts mgr);
     requestContexts := delete requestId (requestContexts mgr) |}.

Definition setRequestContext (mgr : AuditContextManager)
    (requestId contextId : string) : AuditContextManager :=
  {| contexts := contexts mgr;
     requestContexts := <[requestId := contextId]> (requestContexts mgr) |}.

Definition getRequestContextId (mgr : AuditContextManager) (requestId : string)
  : option string :=
  requestContexts mgr !! requestId.

Definition generateRequestId (clock : Clock) : string :=
  "req_" +:+ string_of_Z (now clock) +:+ "_" +:+ random_suffix clock.

(** The request id when it is set and truthy. *)
Definition request_id (req : Request) : option string :=
  match auditRequestId req with
  | Some rid => if String.eqb rid "" then None else Some rid
  | None => None
  end.

(** The helpers act on the global manager and on the request; the fresh
    request id is stored on the request and returned. *)
Definition initializeAuditContext (mgr : AuditContextManager) (clock : Clock)
    (req : Request) : AuditContextManager * Request * string :=
  let requestId := generateRequestId clock in
  (mgr, {| auditRequestId := Some requestId |}, requestId).

Definition cleanupAuditContext (mgr : AuditContextManager) (req : Request)
  : AuditContextManager :=
  match request_id req with
  | Some requestId => clearContext mgr requestId
  | None => mgr
  end.

Definition shouldLogAuditOperation (mgr : AuditContextManager) (req : Request)
    (collection documentId : string) (options : LogOptions) : bool :=
  match request_id req with
  | None => true
  | Some requestId => shouldLogOperation mgr requestId collection documentId options
  end.

Definition markDirectOperation (mgr : AuditContextManager) (clock : Clock)
    (req : Request) (collection documentId : string) : AuditContextManager :=
  match request_id req with
  | None => mgr
  | Some requestId =>
      match getContext mgr requestId with
      | Some context =>
          let context' := {|
            sourceCollection := Some collection;
            sourceDocumentId := Some documentId;
            isDirectOperation := Some true;
            timestamp := timestamp context;
            operationStack := operationStack context
          |} in
          {| contexts := <[requestId := context']> (contexts mgr);
             requestContexts := requestContexts mgr |}
      | None =>
          fst (createContext mgr clock requestId (Some collection) (Some documentId))
      end
  end.

Definition markCascadingOperation (mgr : AuditContextManager) (req : Request)
    (collection documentId : string) : AuditContextManager :=
  match request_id req with
  | None => mgr
  | Some requestId => markAsCascading mgr requestId collection documentId
  end.

(** The cascading mutations of a request, recorded in order. *)
Definition mark_all_cascading (mgr : AuditContextManager) (req : Request)
    (ops : list (string * string)) : AuditContextManager :=
  fold_left (fun m op => markCascadingOperation m req (fst op) (snd op)) ops mgr.

End AuditContext.

(** ** The plugin: option merging and the collection hooks *)

Module Plugin.
Import Js ChangeFormatter AuditContext.

(** A field is [None] when the options object does not carry it. *)
Record AuditLogOptions : Type := {
  collections : option (list string);
  includeAuth : option bool;
  columnsToIgnore : option (list string);
  changeFormatter : option ChangeFormatterOptions;
  allowCascading : option bool;
  maxCascadeDepth : option Z;
  allowSystemFieldOverride : option bool
}.

(** The literal that [defaultOptions] carries both as [columnsToIgnore] and
    as [changeFormatter.excludeFields]. *)
Definition systemFields : list string := [
  "id"; "createdAt"; "updatedAt"; "createdBy"; "updatedBy";
  "sessions"; "password"; "token"; "secret"; "hash"; "salt";
  "lockUntil"; "loginAttempts"; "resetPasswordToken"; "resetPasswordExpiration";
  "lastLogin"; "lastLoginAt"; "emailVerified"; "emailVerificationToken";
  "emailVerificationExpiration"; "forgotPasswordToken"; "forgotPasswordExpiration"
].

Definition defaultOptions : AuditLogOptions := {|
  collections := Some [];
  includeAuth := Some false;
  columnsToIgnore := Some systemFields;
  changeFormatter := Some {|
    excludeFields := Some systemFields;
    meaningfulChangesOnly := Some true;
    maxDepth := Some 2
  |};
  allowCascading := Some false;
  maxCascadeDepth := Some 0;
  allowSystemFieldOverride := Some false
|}.

(** [x ?? d] on an optional field *)
Definition or_else {A : Type} (x : option A) (d : A) : A :=
  match x with Some v => v | None => d end.

(** [{ ...a, ...b }] on one optional field *)
Definition over {A : Type} (a b : option A) : option A :=
  match b with Some v => Some v | None => a end.

(** [o?.excludeFields] *)
Definition excludeFields_of (o : option ChangeFormatterOptions) : option (list string) :=
  match o with Some c => excludeFields c | None => None end.

Definition no_formatter_options : ChangeFormatterOptions :=
  {| excludeFields := None; meaningfulChangesOnly := None; maxDepth := None |}.

(** The [pluginOptions] that [auditLogPlugin options] closes over. *)
Definition mergeOptions (options : AuditLogOptions) : AuditLogOptions := {|
  collections := over (collections defaultOptions) (collections options);
  includeAuth := over (includeAuth defaultOptions) (includeAuth options);
  columnsToIgnore :=
    Some (if flag (allowSystemFieldOverride options)
          then or_else (over (columnsToIgnore defaultOptions) (columnsToIgnore options)) []
          else (or_else (columnsToIgnore defaultOptions) []
                ++ or_else (columnsToIgnore options) [])%list);
  changeFormatter :=
    let merged :=
      spread (or_else (changeFormatter defaultOptions) no_formatter_options)
             (or_else (changeFormatter options) no_formatter_options) in
    Some {|
      excludeFields :=
        if flag (allowSystemFieldOverride options)
        then over (excludeFields_of (changeFormatter defaultOptions))
                  (excludeFields_of (changeFormatter options))
        else Some (or_else (excludeFields_of (changeFormatter defaultOptions)) []
                   ++ or_else (excludeFields_of (changeFormatter options)) [])%list;
      meaningfulChangesOnly := meaningfulChangesOnly merged;
      maxDepth := maxDepth merged
    |};
  allowCascading := over (allowCascading defaultOptions) (allowCascading options);
  maxCascadeDepth := over (maxCascadeDepth defaultOptions) (maxCascadeDepth options);
  allowSystemFieldOverride :=
    over (allowSystemFieldOverride defaultOptions) (allowSystemFieldOverride options)
|}.

(** The options the [afterChange] hook hands to [formatChanges]. *)
Definition formatterOptions (pluginOptions : AuditLogOptions) : ChangeFormatterOptions :=
  let base := or_else (changeFormatter pluginOptions) no_formatter_options in
  {| excludeFields :=
       Some (or_else (columnsToIgnore pluginOptions) []
             ++ or_else (excludeFields_of (changeFormatter pluginOptions)) [])%list;
     meaningfulChangesOnly := meaningfulChangesOnly base;
     maxDepth := maxDepth base |}.

(** A document of the [audit-logs] collection. *)
Record AuditLogEntry : Type := {
  entry_collection : string;
  entry_action : string;
  entry_documentId : string;
  entry_timestamp : string;
  entry_user : value;
  entry_changes : value
}.

(** The request, as far as the hooks read and write it. *)
Record PayloadRequest : Type := {
  tracking : Request;
  user : value
}.

(** What a hook acts on: the global context manager, the request and the
    [audit-logs] collection, to which [req.payload.create] appends. *)
Record World : Type := {
  manager : AuditContextManager;
  request : PayloadRequest;
  audit_logs : list AuditLogEntry
}.

(** The time inputs of one hook call: [Date.now()] with the random suffix,
    and [new Date().toISOString()]. *)
Record HookTime : Type := {
  clock : Clock;
  iso_now : string
}.

(** The opening of both hooks: initialise the request when it has no id,
    decide, and record the mutation as cascading or as direct. *)
Definition track (pluginOptions : AuditLogOptions) (mgr : AuditContextManager)
    (req : Request) (clock : Clock) (slug documentId : string)
  : AuditContextManager * Request * bool :=
  let initialised :=
    match request_id req with
    | None => fst (initializeAuditContext mgr clock req)
    | Some _ => (mgr, req)
    end in
  let mgr := fst initialised in
  let req := snd initialised in
  let shouldLog :=
    shouldLogAuditOperation mgr req slug documentId
      (Build_LogOptions (allowCascading pluginOptions) (maxCascadeDepth pluginOptions)) in
  if negb shouldLog
  then (markCascadingOperation mgr req slug documentId, req, false)
  else (markDirectOperation mgr clock req slug documentId, req, true).

Definition tracked (w : World) (mgr : AuditContextManager) (req : Request) : World :=
  {| manager := mgr;
     request := {| tracking := req; user := user (request w) |};
     audit_logs := audit_logs w |}.

(** [await req.payload.create({ collection: 'audit-logs', data })] *)
Definition write_entry (w : World) (data : AuditLogEntry) : World :=
  {| manager := manager w; request := request w;
     audit_logs := (audit_logs w ++ [data])%list |}.

Definition is_some {A : Type} (x : option A) : bool :=
  match x with Some _ => true | None => false end.

(** [String(doc.id ?? previousDoc?.id ?? '')] *)
Definition documentId_of (doc : list (string * value))
    (previousDoc : option (list (string * value))) : string :=
  to_String
    (nullish_or (get (VObj doc) "id")
       (nullish_or
          (match previousDoc with Some p => get (VObj p) "id" | None => VUndef end)
          (VStr ""))).

Section Hooks.
Variable same_ref : value -> value -> bool.
Variable pluginOptions : AuditLogOptions.
Variable slug : string.

Definition afterChange (w : World) (t : HookTime) (operation : string)
    (doc : list (string * value)) (previousDoc : option (list (string * value)))
  : World :=
  let action := if String.eqb operation "create" then "create" else "update" in
  let documentId := documentId_of doc previousDoc in
  let '(mgr, req, shouldLog) :=
    track pluginOptions (manager w) (tracking (request w)) (clock t) slug documentId in
  let w := tracked w mgr req in
  if negb shouldLog then w
  else
    let entry changes := {|
      entry_collection := slug;
      entry_action := action;
      entry_documentId := documentId;
      entry_timestamp := iso_now t;
      entry_user := get (user (request w)) "id";
      entry_changes := if String.eqb action "update" then changes else VObj doc
    |} in
    if String.eqb action "update" && is_some previousDoc then
      let changes := formatChanges same_ref doc previousDoc (formatterOptions pluginOptions) in
      if negb (shouldLogChanges (as_change_set changes) None) then w
      else if truthy changes && is_object changes
              && (length (own_keys changes) =? 0)%nat then w
      else write_entry w (entry changes)
    else write_entry w (entry VNull).

Definition afterDelete (w : World) (t : HookTime) (doc : list (string * value))
  : World :=
  let documentId := to_String (nullish_or (get (VObj doc) "id") (VStr "")) in
  let '(mgr, req, shouldLog) :=
    track pluginOptions (manager w) (tracking (request w)) (clock t) slug documentId in
  let w := tracked w mgr req in
  if negb shouldLog then w
  else
    write_entry w {|
      entry_collection := slug;
      entry_action := "delete";
      entry_documentId := documentId;
      entry_timestamp := iso_now t;
      entry_user := get (user (request w)) "id";
      entry_changes := VObj doc
    |}.
End Hooks.

(** The mutations of one request, as the hooks of the audited collections
    see them one after the other. *)
Inductive HookEvent : Type :=
| Changed (slug operation : string) (doc : list (string * value))
    (previousDoc : option (list (string * value)))
| Deleted (slug : string) (doc : list (string * value)).

Definition event_slug (e : HookEvent) : string :=
  match e with Changed slug _ _ _ => slug | Deleted slug _ => slug end.

Definition event_documentId (e : HookEvent) : string :=
  match e with
  | Changed _ _ doc previousDoc => documentId_of doc previousDoc
  | Deleted _ doc => to_String (nullish_or (get (VObj doc) "id") (VStr ""))
  end.

Definition run_hook (same_ref : value -> value -> bool)
    (pluginOptions : AuditLogOptions) (w : World) (step : HookTime * HookEvent) : World :=
  match snd step with
  | Changed slug operation doc previousDoc =>
      afterChange same_ref pluginOptions slug w (fst step) operation doc previousDoc
  | Deleted slug doc => afterDelete pluginOptions slug w (fst step) doc
  end.

Definition run_hooks (same_ref : value -> value -> bool)
    (pluginOptions : AuditLogOptions) (w : World) (steps : list (HookTime * HookEvent))
  : World :=
  fold_left (run_hook same_ref pluginOptions) steps w.

(** The decision the hook takes for an event in a given world. *)
Definition hook_decision (pluginOptions : AuditLogOptions) (w : World)
    (step : HookTime * HookEvent) : bool :=
  snd (track pluginOptions (manager w) (tracking (request w)) (clock (fst step))
         (event_slug (snd step)) (event_documentId (snd step))).

End Plugin.

(** * Properties of the cascade tracker *)

Module TrackerFacts.
Import AuditContext.

(** The request carries a usable token. *)
Definition has_token (req : Request) (rid : string) : Prop :=
  request_id req = Some rid.

(** The recorded source of [ctx] is [(collection, documentId)]. *)
Definition is_source (ctx : AuditContext) (collection documentId : string) : bool :=
  field_is (sourceCollection ctx) collection
  && field_is (sourceDocumentId ctx) documentId.

(** The token's context exists and its source is [(c0, id0)]. *)
Definition sourced_at (mgr : AuditContextManager) (rid c0 id0 : string) : Prop :=
  exists ctx, contexts mgr !! rid = Some ctx
    /\ sourceCollection ctx = Some c0 /\ sourceDocumentId ctx = Some id0.

Lemma field_is_refl (s : string) : field_is (Some s) s = true.
Proof. simpl. apply String.eqb_refl. Qed.

Lemma markDirect_sourced mgr clock req rid c0 id0 :
  has_token req rid ->
  sourced_at (markDirectOperation mgr clock req c0 id0) rid c0 id0.
Proof.
  unfold has_token, markDirectOperation, getContext. intros ->.
  destruct (contexts mgr !! rid) as [ctx|] eqn:Hctx; simpl;
    eexists; (split; [apply lookup_insert_eq | split; reflexivity]).
Qed.

Lemma markAsCascading_sourced mgr rid c d c0 id0 :
  sourced_at mgr rid c0 id0 -> sourced_at (markAsCascading mgr rid c d) rid c0 id0.
Proof.
  intros (ctx & Hctx & Hc & Hd). unfold markAsCascading. rewrite Hctx.
  eexists. split; [apply lookup_insert_eq | simpl; auto].
Qed.

Lemma mark_all_cascading_sourced req rid c0 id0 ops :
  has_token req rid ->
  forall mgr, sourced_at mgr rid c0 id0 ->
              sourced_at (mark_all_cascading mgr req ops) rid c0 id0.
Proof.
  intros Htok. unfold mark_all_cascading.
  induction ops as [|[c d] ops IH]; intros mgr Hs; simpl; [exact Hs|].
  apply IH. unfold markCascadingOperation. rewrite Htok.
  now apply markAsCascading_sourced.
Qed.

Lemma sourced_should_log mgr rid c0 id0 opts :
  sourced_at mgr rid c0 id0 -> shouldLogOperation mgr rid c0 id0 opts = true.
Proof.
  intros (ctx & Hctx & Hc & Hd). unfold shouldLogOperation.
  rewrite Hctx, Hc, Hd, !field_is_refl. reflexivity.
Qed.

(** The stack of a context, [[]] when the field is unset. *)
Definition stack_of (ctx : AuditContext) : list string :=
  match operationStack ctx with Some s => s | None => [] end.

(** The token's context exists, its source is [(c0, id0)] and [n]
    cascading mutations are on its stack. *)
Definition cascading_at (mgr : AuditContextManager) (rid c0 id0 : string)
    (n : nat) : Prop :=
  exists ctx stack, contexts mgr !! rid = Some ctx
    /\ sourceCollection ctx = Some c0 /\ sourceDocumentId ctx = Some id0
    /\ operationStack ctx = Some stack /\ length stack = n.

Lemma markDirect_fresh mgr clock req rid c0 id0 :
  has_token req rid -> getContext mgr rid = None ->
  cascading_at (markDirectOperation mgr clock req c0 id0) rid c0 id0 0.
Proof.
  unfold has_token, markDirectOperation. intros -> ->. simpl.
  eexists _, []. split; [apply lookup_insert_eq | simpl; auto].
Qed.

Lemma markAsCascading_push mgr rid c d c0 id0 n :
  cascading_at mgr rid c0 id0 n ->
  cascading_at (markAsCascading mgr rid c d) rid c0 id0 (S n).
Proof.
  intros (ctx & stack & Hctx & Hc & Hd & Hs & Hn). unfold markAsCascading.
  rewrite Hctx, Hs. eexists _, _.
  split; [apply lookup_insert_eq | simpl]. repeat split; auto.
  rewrite length_app. simpl. lia.
Qed.

Lemma mark_all_cascading_push req rid c0 id0 ops :
  has_token req rid ->
  forall mgr n, cascading_at mgr rid c0 id0 n ->
    cascading_at (mark_all_cascading mgr req ops) rid c0 id0 (n + length ops).
Proof.
  intros Htok. unfold mark_all_cascading.
  induction ops as [|[c d] ops IH]; intros mgr n Hs; simpl.
  - now rewrite Nat.add_0_r.
  - replace (n + S (length ops))%nat with (S n + length ops)%nat by lia.
    apply IH. unfold markCascadingOperation. rewrite Htok.
    now apply markAsCascading_push.
Qed.

(** The depth the gate compares the stack with: [maxCascadeDepth || 1]. *)
Definition depth_limit (m : option Z) : Z :=
  match m with
  | Some n => if (n =? 0)%Z then 1 else n
  | None => 1
  end.

Lemma gate_by_stack mgr rid ctx c d stack m :
  contexts mgr !! rid = Some ctx ->
  is_source ctx c d = false ->
  operationStack ctx = Some stack ->
  shouldLogOperation mgr rid c d
    {| allowCascading := Some true; maxCascadeDepth := m |}
  = negb (depth_limit m <=? Z.of_nat (length stack))%Z.
Proof.
  unfold is_source, shouldLogOperation, depth_limit. intros -> -> ->. simpl.
  rewrite Z.geb_leb. now destruct (_ <=? _)%Z.
Qed.

(** A tracking context is allocated for [token] and is not yet sourced. *)
Definition allocated_unsourced (mgr : AuditContextManager) (token : string) : Prop :=
  exists ctx, getContext mgr token = Some ctx
    /\ sourceCollection ctx = None /\ sourceDocumentId ctx = None.

Definition clock0 : Clock := {| now := 1700000000000; random_suffix := "k3x9q2m1z" |}.
Definition fresh_request : Request := {| auditRequestId := None |}.

(** A request whose first mutation [contracts/c1] was recorded as direct. *)
Definition sourced_manager : AuditContextManager :=
  markDirectOperation empty_manager clock0 {| auditRequestId := Some "r1" |}
    "contracts" "c1".

(** C2, as stated, fails: with [allowCascading = true] and
    [maxCascadeDepth = 0] the first non-source mutation of a request (stack
    length 0, so [L >= N]) is logged, where the claim has [false]. *)
Lemma cascade_depth_zero_counterexample :
  ~ (shouldLogOperation sourced_manager "r1" "clients" "cl1"
       {| allowCascading := Some true; maxCascadeDepth := Some 0 |} = false
     <-> (0 <= Z.of_nat (@length string []))%Z).
Proof.
  intros [_ H]. specialize (H ltac:(simpl; lia)). vm_compute in H. discriminate H.
Qed.

(** C2 (amended): for a context whose recorded source differs from the
    queried [(collection, id)] and whose stack has length [L], with
    [allowCascading = true], [shouldLogOperation] returns [false] exactly
    when [L >= N] for every supplied [maxCascadeDepth = N] other than 0;
    when [maxCascadeDepth] is unset or 0 the depth 1 is used, so the result
    is [false] exactly when [L >= 1]. *)
Theorem cascade_depth_gate (mgr : AuditContextManager) (rid c d : string)
    (ctx : AuditContext) (stack : list string) :
  contexts mgr !! rid = Some ctx ->
  is_source ctx c d = false ->
  operationStack ctx = Some stack ->
  let L := Z.of_nat (length stack) in
  let logged m :=
    shouldLogOperation mgr rid c d
      {| allowCascading := Some true; maxCascadeDepth := m |} in
  (forall N : Z, N <> 0%Z -> (logged (Some N) = false <-> (N <= L)%Z))
  /\ (logged None = false <-> (1 <= L)%Z)
  /\ (logged (Some 0%Z) = false <-> (1 <= L)%Z).
Proof.
  intros Hctx Hsrc Hstack L logged. subst logged L.
  assert (Hgate : forall m,
    shouldLogOperation mgr rid c d
      {| allowCascading := Some true; maxCascadeDepth := m |} = false
    <-> (depth_limit m <= Z.of_nat (length stack))%Z).
  { intros m. rewrite (gate_by_stack _ _ _ _ _ _ _ Hctx Hsrc Hstack).
    rewrite negb_false_iff. apply Z.leb_le. }
  split; [|split].
  - intros N HN. rewrite Hgate. unfold depth_limit.
    apply Z.eqb_neq in HN. now rewrite HN.
  - apply Hgate.
  - apply Hgate.
Qed.

Lemma cascade_depth_gate_witness :
  (shouldLogOperation
     (markAsCascading sourced_manager "r1" "clients" "cl1") "r1" "users" "u1"
     {| allowCascading := Some true; maxCascadeDepth := Some 2%Z |} = false
   <-> (2 <= 1)%Z)
  /\ (shouldLogOperation
       (markAsCascading sourced_manager "r1" "clients" "cl1") "r1" "users" "u1"
       {| allowCascading := Some true; maxCascadeDepth := Some 0%Z |} = false
     <-> (1 <= 1)%Z).
Proof.
  pose proof (cascade_depth_gate
    (markAsCascading sourced_manager "r1" "clients" "cl1") "r1" "users" "u1"
    {| sourceCollection := Some "contracts"; sourceDocumentId := Some "c1";
       isDirectOperation := Some false; timestamp := Some 1700000000000%Z;
       operationStack := Some ["clients:cl1"] |}
    ["clients:cl1"] eq_refl eq_refl eq_refl) as (HN & _ & H0).
  split; [apply (HN 2%Z); discriminate | exact H0].
Defined.

(** C3, as stated, fails: initialising a request on an empty registry
    leaves the registry empty, so no context is retrievable for the token. *)
Lemma initialize_allocates_counterexample :
  ~ allocated_unsourced
      (fst (fst (initializeAuditContext empty_manager clock0 fresh_request)))
      (snd (initializeAuditContext empty_manager clock0 fresh_request)).
Proof.
  intros (ctx & Hctx & _). vm_compute in Hctx. discriminate Hctx.
Qed.

(** C3 (amended): [initializeAuditContext] on a token in the Uninitialized
    state assigns the token to the request and allocates nothing: the
    registry is unchanged, no context is retrievable for the token, and
    every logging decision of the request fails open. *)
Theorem initialize_assigns_token_only (mgr : AuditContextManager)
    (clock : Clock) (req : Request) :
  getContext mgr (generateRequestId clock) = None ->
  let mgr' := fst (fst (initializeAuditContext mgr clock req)) in
  let req' := snd (fst (initializeAuditContext mgr clock req)) in
  let token := snd (initializeAuditContext mgr clock req) in
  mgr' = mgr
  /\ auditRequestId req' = Some token
  /\ getContext mgr' token = None
  /\ forall c d opts, shouldLogAuditOperation mgr' req' c d opts = true.
Proof.
  intros Hfresh. simpl. repeat split; auto.
  intros c d opts. unfold shouldLogAuditOperation, request_id. simpl.
  unfold shouldLogOperation. unfold getContext in Hfresh. now rewrite Hfresh.
Qed.

Lemma initialize_assigns_token_only_witness :
  fst (fst (initializeAuditContext empty_manager clock0 fresh_request)) = empty_manager
  /\ getContext
       (fst (fst (initializeAuditContext empty_manager clock0 fresh_request)))
       (snd (initializeAuditContext empty_manager clock0 fresh_request)) = None.
Proof.
  pose proof (initialize_assigns_token_only empty_manager clock0 fresh_request
                eq_refl) as (H1 & _ & H3 & _).
  split; [exact H1 | exact H3].
Defined.

(** C8: once the first mutation [(c0, id0)] of a request has been recorded
    with [markDirectOperation] and every later one with
    [markCascadingOperation], [shouldLogAuditOperation] answers [true] for
    [(c0, id0)], whatever [allowCascading] and [maxCascadeDepth] are. *)
Theorem source_always_logged (mgr : AuditContextManager) (clock : Clock)
    (req : Request) (c0 id0 : string) (ops : list (string * string))
    (opts : LogOptions) :
  shouldLogAuditOperation
    (mark_all_cascading (markDirectOperation mgr clock req c0 id0) req ops)
    req c0 id0 opts = true.
Proof.
  unfold shouldLogAuditOperation.
  destruct (request_id req) as [rid|] eqn:Htok; [|reflexivity].
  apply sourced_should_log.
  apply mark_all_cascading_sourced; [exact Htok|].
  now apply markDirect_sourced.
Qed.

(** The depth boundary along a request: after the first mutation was
    recorded as direct on a fresh token and [ops] later ones as cascading,
    a further non-source mutation is logged, under [allowCascading = true]
    and a non-zero [maxCascadeDepth = N], exactly when fewer than [N]
    cascading mutations are on the stack. *)
Theorem cascade_boundary (mgr : AuditContextManager) (clock : Clock)
    (req : Request) (rid c0 id0 c d : string) (ops : list (string * string))
    (N : Z) :
  has_token req rid ->
  getContext mgr rid = None ->
  String.eqb c0 c && String.eqb id0 d = false ->
  N <> 0%Z ->
  shouldLogAuditOperation
    (mark_all_cascading (markDirectOperation mgr clock req c0 id0) req ops)
    req c d {| allowCascading := Some true; maxCascadeDepth := Some N |} = true
  <-> (Z.of_nat (length ops) < N)%Z.
Proof.
  intros Htok Hfresh Hne HN.
  pose proof (mark_all_cascading_push req rid c0 id0 ops Htok _ _
                (markDirect_fresh mgr clock req rid c0 id0 Htok Hfresh))
    as (ctx & stack & Hctx & Hc & Hd & Hs & Hlen).
  unfold shouldLogAuditOperation. rewrite Htok.
  rewrite (gate_by_stack _ _ ctx _ _ stack _ Hctx); [| |exact Hs].
  - unfold depth_limit. apply Z.eqb_neq in HN. rewrite HN, Hlen. simpl.
    rewrite negb_true_iff, Z.leb_gt. reflexivity.
  - unfold is_source. now rewrite Hc, Hd.
Qed.

Lemma cascade_boundary_witness :
  shouldLogAuditOperation
    (mark_all_cascading
       (markDirectOperation empty_manager clock0 {| auditRequestId := Some "r1" |}
          "contracts" "c1")
       {| auditRequestId := Some "r1" |} [("clients", "cl1")])
    {| auditRequestId := Some "r1" |} "users" "u1"
    {| allowCascading := Some true; maxCascadeDepth := Some 2%Z |} = true
  <-> (Z.of_nat (length [("clients", "cl1")]) < 2)%Z.
Proof.
  apply (cascade_boundary empty_manager clock0 {| auditRequestId := Some "r1" |}
           "r1" "contracts" "c1" "users" "u1" [("clients", "cl1")] 2%Z).
  - reflexivity.
  - reflexivity.
  - reflexivity.
  - discriminate.
Defined.

(** Without [allowCascading] only the source mutation of a sourced request
    is logged. *)
Theorem cascading_off_only_source (mgr : AuditContextManager)
    (rid c0 id0 c d : string) (depth : option Z) :
  sourced_at mgr rid c0 id0 ->
  String.eqb c0 c && String.eqb id0 d = false ->
  shouldLogOperation mgr rid c d
    {| allowCascading := Some false; maxCascadeDepth := depth |} = false
  /\ shouldLogOperation mgr rid c d
       {| allowCascading := None; maxCascadeDepth := depth |} = false.
Proof.
  intros (ctx & Hctx & Hc & Hd) Hne. unfold shouldLogOperation.
  rewrite Hctx, Hc, Hd. simpl. rewrite Hne. now split.
Qed.

Lemma cascading_off_only_source_witness :
  shouldLogOperation sourced_manager "r1" "clients" "cl1"
    {| allowCascading := Some false; maxCascadeDepth := None |} = false.
Proof.
  refine (proj1 (cascading_off_only_source sourced_manager "r1" "contracts" "c1"
                   "clients" "cl1" None _ eq_refl)).
  eexists. split; [reflexivity | split; reflexivity].
Defined.

(** A request without a token, or whose token has no context, fails open. *)
Theorem missing_context_fails_open (mgr : AuditContextManager) (req : Request)
    (c d : string) (opts : LogOptions) :
  match request_id req with
  | Some rid => getContext mgr rid = None
  | None => True
  end ->
  shouldLogAuditOperation mgr req c d opts = true.
Proof.
  unfold shouldLogAuditOperation, shouldLogOperation, getContext.
  destruct (request_id req) as [rid|]; [|reflexivity]. now intros ->.
Qed.

Lemma missing_context_fails_open_witness :
  shouldLogAuditOperation empty_manager fresh_request "test" "test-123"
    {| allowCascading := Some false; maxCascadeDepth := None |} = true.
Proof.
  apply (missing_context_fails_open empty_manager fresh_request). exact I.
Defined.

(** Cleanup removes the context of a token and is idempotent. *)
Theorem clearContext_idempotent (mgr : AuditContextManager) (rid : string) :
  getContext (clearContext mgr rid) rid = None
  /\ clearContext (clearContext mgr rid) rid = clearContext mgr rid.
Proof.
  unfold getContext, clearContext. simpl. split.
  - apply lookup_delete_eq.
  - f_equal; apply delete_delete_eq.
Qed.

(** ** Several requests, and the life of one context *)

(** A call of one of the request helpers that change the registry. *)
Inductive TrackerCall : Type :=
| CallDirect (collection documentId : string)
| CallCascading (collection documentId : string)
| CallCleanup.

Definition perform (req : Request) (mgr : AuditContextManager)
    (call : Clock * TrackerCall) : AuditContextManager :=
  match snd call with
  | CallDirect c d => markDirectOperation mgr (fst call) req c d
  | CallCascading c d => markCascadingOperation mgr req c d
  | CallCleanup => cleanupAuditContext mgr req
  end.

(** The tag pushed on the stack for a cascading mutation. *)
Definition tag (op : string * string) : string := fst op +:+ ":" +:+ snd op.

Lemma perform_other_token req mgr call rid' :
  request_id req <> Some rid' ->
  contexts (perform req mgr call) !! rid' = contexts mgr !! rid'.
Proof.
  intros Hne. unfold perform, markDirectOperation, markCascadingOperation,
    cleanupAuditContext, markAsCascading, getContext, clearContext.
  destruct (request_id req) as [rid|] eqn:Hrid; [|now destruct (snd call)].
  assert (rid <> rid') by congruence.
  destruct (snd call); simpl; try destruct (contexts mgr !! rid); simpl;
    rewrite ?lookup_insert_ne, ?lookup_delete_ne by assumption; reflexivity.
Qed.

(** Whatever one request does to the tracker (recording direct and
    cascading mutations, cleaning up) leaves the context of every other
    token, and so every logging decision taken for it, as it was. *)
Theorem requests_are_independent (req : Request) (calls : list (Clock * TrackerCall))
    (mgr : AuditContextManager) (rid' c d : string) (opts : LogOptions) :
  request_id req <> Some rid' ->
  getContext (fold_left (perform req) calls mgr) rid' = getContext mgr rid'
  /\ shouldLogOperation (fold_left (perform req) calls mgr) rid' c d opts
     = shouldLogOperation mgr rid' c d opts.
Proof.
  intros Hne.
  assert (H : contexts (fold_left (perform req) calls mgr) !! rid' = contexts mgr !! rid').
  { revert mgr. induction calls as [|call calls IH]; intros mgr; simpl; [reflexivity|].
    rewrite IH. now apply perform_other_token. }
  split; [exact H|]. unfold shouldLogOperation. now rewrite H.
Qed.

Lemma requests_are_independent_witness :
  shouldLogOperation
    (fold_left (perform {| auditRequestId := Some "r2" |})
       [(clock0, CallDirect "posts" "p1"); (clock0, CallCascading "tags" "t1");
        (clock0, CallCleanup)]
       sourced_manager)
    "r1" "clients" "cl1" {| allowCascading := Some false; maxCascadeDepth := None |}
  = shouldLogOperation sourced_manager "r1" "clients" "cl1"
      {| allowCascading := Some false; maxCascadeDepth := None |}.
Proof.
  apply (requests_are_independent {| auditRequestId := Some "r2" |}).
  simpl. discriminate.
Defined.

Lemma mark_all_cascading_context req rid ops : has_token req rid ->
  forall mgr ctx stack,
    contexts mgr !! rid = Some ctx -> operationStack ctx = Some stack ->
    contexts (mark_all_cascading mgr req ops) !! rid
    = Some {| sourceCollection := sourceCollection ctx;
              sourceDocumentId := sourceDocumentId ctx;
              isDirectOperation :=
                match ops with [] => isDirectOperation ctx | _ => Some false end;
              timestamp := timestamp ctx;
              operationStack := Some (stack ++ map tag ops)%list |}.
Proof.
  intros Htok. unfold mark_all_cascading.
  induction ops as [|[c d] ops IH]; intros mgr ctx stack Hctx Hstack; simpl.
  - rewrite app_nil_r, Hctx, <- Hstack. now destruct ctx.
  - unfold markCascadingOperation at 2. rewrite Htok.
    unfold markAsCascading. rewrite Hctx, Hstack.
    erewrite IH; [|apply lookup_insert_eq|reflexivity]. simpl.
    rewrite <- app_assoc. simpl. now destruct ops.
Qed.

(** After the first mutation of a request was recorded as direct on a
    fresh token and the later ones as cascading, the context still names
    the first mutation as its source and its stack holds one tag
    [collection:id] per cascading mutation, in the order they came. *)
Theorem stack_records_cascades (mgr : AuditContextManager) (clock : Clock)
    (req : Request) (rid c0 id0 : string) (ops : list (string * string)) :
  has_token req rid ->
  getContext mgr rid = None ->
  getContext (mark_all_cascading (markDirectOperation mgr clock req c0 id0) req ops) rid
  = Some {| sourceCollection := Some c0;
            sourceDocumentId := Some id0;
            isDirectOperation := Some (match ops with [] => true | _ => false end);
            timestamp := Some (now clock);
            operationStack := Some (map tag ops) |}.
Proof.
  intros Htok Hfresh. unfold getContext.
  pose (ctx0 := {| sourceCollection := Some c0; sourceDocumentId := Some id0;
                   isDirectOperation := Some true; timestamp := Some (now clock);
                   operationStack := Some [] |}).
  assert (Hctx0 : contexts (markDirectOperation mgr clock req c0 id0) !! rid = Some ctx0).
  { unfold markDirectOperation. unfold has_token in Htok. rewrite Htok, Hfresh.
    simpl. apply lookup_insert_eq. }
  rewrite (mark_all_cascading_context req rid ops Htok _ ctx0 [] Hctx0 eq_refl).
  simpl. now destruct ops.
Qed.

Lemma stack_records_cascades_witness :
  getContext
    (mark_all_cascading
       (markDirectOperation empty_manager clock0 {| auditRequestId := Some "r1" |}
          "contracts" "c1")
       {| auditRequestId := Some "r1" |} [("clients", "cl1"); ("users", "u1")]) "r1"
  = Some {| sourceCollection := Some "contracts";
            sourceDocumentId := Some "c1";
            isDirectOperation := Some false;
            timestamp := Some (now clock0);
            operationStack := Some ["clients:cl1"; "users:u1"] |}.
Proof.
  apply (stack_records_cascades empty_manager clock0 {| auditRequestId := Some "r1" |}
           "r1" "contracts" "c1" [("clients", "cl1"); ("users", "u1")]); reflexivity.
Defined.

(** The request-to-context map: an id that was set is read back, other
    requests keep theirs, the tracking contexts are not touched, and
    [clearContext] forgets the id. *)
Theorem requestContext_roundtrip (mgr : AuditContextManager)
    (requestId contextId other : string) :
  getRequestContextId (setRequestContext mgr requestId contextId) requestId
    = Some contextId
  /\ (other <> requestId ->
      getRequestContextId (setRequestContext mgr requestId contextId) other
      = getRequestContextId mgr other)
  /\ getContext (setRequestContext mgr requestId contextId) other = getContext mgr other
  /\ getRequestContextId
       (clearContext (setRequestContext mgr requestId contextId) requestId) requestId
     = None.
Proof.
  unfold getRequestContextId, setRequestContext, getContext, clearContext. simpl.
  repeat split.
  - apply lookup_insert_eq.
  - intros Hne. now apply lookup_insert_ne.
  - apply lookup_delete_eq.
Qed.

Lemma requestContext_roundtrip_witness :
  getRequestContextId (setRequestContext empty_manager "r1" "ctx-1") "r2"
  = getRequestContextId empty_manager "r2".
Proof.
  apply (proj1 (proj2 (requestContext_roundtrip empty_manager "r1" "ctx-1" "r2"))).
  discriminate.
Defined.

(** Cleanup takes a request back to the start: every decision for it is
    [true] again, and the next direct mutation opens a new context with an
    empty stack, whatever the old one held. *)
Theorem cleanup_reopens (mgr : AuditContextManager) (clock : Clock) (req : Request)
    (c d : string) (opts : LogOptions) :
  shouldLogAuditOperation (cleanupAuditContext mgr req) req c d opts = true
  /\ forall rid, has_token req rid ->
       getContext (markDirectOperation (cleanupAuditContext mgr req) clock req c d) rid
       = Some {| sourceCollection := Some c;
                 sourceDocumentId := Some d;
                 isDirectOperation := Some true;
                 timestamp := Some (now clock);
                 operationStack := Some [] |}.
Proof.
  unfold shouldLogAuditOperation, cleanupAuditContext, markDirectOperation,
    shouldLogOperation, getContext, has_token.
  destruct (request_id req) as [rid|]; [|split; [reflexivity | discriminate]].
  simpl. rewrite lookup_delete_eq. split; [reflexivity|].
  intros ? [= <-]. simpl. apply lookup_insert_eq.
Qed.

Lemma cleanup_reopens_witness :
  getContext
    (markDirectOperation
       (cleanupAuditContext (markAsCascading sourced_manager "r1" "clients" "cl1")
          {| auditRequestId := Some "r1" |})
       clock0 {| auditRequestId := Some "r1" |} "users" "u1") "r1"
  = Some {| sourceCollection := Some "users";
            sourceDocumentId := Some "u1";
            isDirectOperation := Some true;
            timestamp := Some (now clock0);
            operationStack := Some [] |}.
Proof.
  apply (proj2 (cleanup_reopens (markAsCascading sourced_manager "r1" "clients" "cl1")
                  clock0 {| auditRequestId := Some "r1" |} "users" "u1"
                  {| allowCascading := None; maxCascadeDepth := None |})).
  reflexivity.
Defined.

End TrackerFacts.

(** * Properties of the change formatter *)

Module FormatterFacts.
Import Js ChangeFormatter.

(** Field [k] of a change-set: [None] when the change-set is [null] or has
    no such field. *)
Definition result_field (changes : value) (k : string) : option value :=
  match changes with
  | VObj fs => lookup_field k fs
  | _ => None
  end.

(** The field name [k] occurs somewhere in [v]: as a key of [v] or of a
    keyed map nested in it, inside arrays included. *)
Fixpoint mentions (k : string) (v : value) : bool :=
  match v with
  | VArr l => List.existsb (mentions k) l
  | VObj fs => List.existsb (fun p => String.eqb k (fst p) || mentions k (snd p)) fs
  | _ => false
  end.

Definition no_options : ChangeFormatterOptions :=
  {| excludeFields := None; meaningfulChangesOnly := None; maxDepth := None |}.

(** ** Keyed maps and key lists *)

Lemma includes_key_In (k : string) (keys : list string) :
  includes_key k keys = true <-> In k keys.
Proof.
  unfold includes_key. rewrite existsb_exists. split.
  - intros (x & Hx & Heq). apply String.eqb_eq in Heq. now subst.
  - intros H. exists k. split; [exact H | apply String.eqb_refl].
Qed.

Lemma includes_key_not_In (k : string) (keys : list string) :
  includes_key k keys = false <-> ~ In k keys.
Proof.
  rewrite <- includes_key_In. destruct (includes_key k keys); split; congruence.
Qed.

Lemma lookup_obj_set_same fs k c : lookup_field k (obj_set fs k c) = Some c.
Proof.
  induction fs as [|[k' v] fs IH]; simpl.
  - now rewrite String.eqb_refl.
  - destruct (String.eqb k k') eqn:E; simpl; rewrite E; auto.
Qed.

Lemma lookup_obj_set_other fs k k' c :
  k <> k' -> lookup_field k (obj_set fs k' c) = lookup_field k fs.
Proof.
  intros Hne. induction fs as [|[k1 v] fs IH]; simpl.
  - apply String.eqb_neq in Hne. now rewrite Hne.
  - destruct (String.eqb k' k1) eqn:E; simpl.
    + apply String.eqb_eq in E. subst k1.
      apply String.eqb_neq in Hne. now rewrite Hne.
    + now rewrite IH.
Qed.

Lemma lookup_field_not_In k fs : ~ In k (map fst fs) -> lookup_field k fs = None.
Proof.
  induction fs as [|[k' v] fs IH]; simpl; [reflexivity|]. intros Hn.
  destruct (String.eqb k k') eqn:E.
  - apply String.eqb_eq in E. subst. tauto.
  - apply IH. tauto.
Qed.

Lemma unique_from_spec keys : forall seen k,
  In k (unique_from seen keys) <-> In k keys /\ ~ In k seen.
Proof.
  induction keys as [|x keys IH]; intros seen k; simpl; [tauto|].
  destruct (includes_key x seen) eqn:E.
  - apply includes_key_In in E. rewrite IH. split.
    + tauto.
    + intros [[->|H] Hn]; tauto.
  - apply includes_key_not_In in E. simpl. rewrite IH. simpl. split.
    + intros [->|[H Hn]]; tauto.
    + intros [[->|H] Hn]; [tauto|].
      destruct (string_dec x k) as [->|Hne]; [tauto|]. right. tauto.
Qed.

Lemma unique_from_NoDup keys : forall seen, List.NoDup (unique_from seen keys).
Proof.
  induction keys as [|x keys IH]; intros seen; simpl; [constructor|].
  destruct (includes_key x seen); [apply IH|].
  constructor; [|apply IH]. rewrite unique_from_spec. simpl. tauto.
Qed.

Lemma unique_In keys k : In k (unique keys) <-> In k keys.
Proof. unfold unique. rewrite unique_from_spec. simpl. tauto. Qed.

Lemma unique_NoDup keys : List.NoDup (unique keys).
Proof. apply unique_from_NoDup. Qed.

(** ** The loop that assembles a change map *)

Lemma fold_record_flag body keys : forall acc,
  snd (fold_left (fun acc key => record_change acc key (body key)) keys acc) = false ->
  snd acc = false /\ forall k, In k keys -> body k = None.
Proof.
  induction keys as [|x keys IH]; intros acc H; simpl in *; [tauto|].
  apply IH in H as [Hacc Hrest]. destruct (body x) eqn:E; simpl in Hacc.
  - discriminate.
  - split; [exact Hacc|]. intros k [->|Hk]; auto.
Qed.

Lemma fold_record_lookup body k keys : forall acc,
  List.NoDup keys ->
  lookup_field k (fst (fold_left (fun acc key => record_change acc key (body key))
                         keys acc))
  = if includes_key k keys
    then match body k with Some c => Some c | None => lookup_field k (fst acc) end
    else lookup_field k (fst acc).
Proof.
  induction keys as [|x keys IH]; intros acc Hnd; simpl; [reflexivity|].
  inversion Hnd as [|? ? Hx Hnd']; subst. rewrite (IH _ Hnd').
  destruct (String.eqb k x) eqn:E; simpl.
  - apply String.eqb_eq in E. subst x.
    apply includes_key_not_In in Hx. rewrite Hx.
    destruct (body k); simpl; [apply lookup_obj_set_same | reflexivity].
  - apply String.eqb_neq in E.
    assert (Hsame : lookup_field k (fst (record_change acc x (body x)))
                    = lookup_field k (fst acc)).
    { destruct (body x); simpl; [now apply lookup_obj_set_other | reflexivity]. }
    now rewrite Hsame.
Qed.

(** What the loop leaves at field [k] of the assembled change-set. *)
Lemma for_keys_field body keys k :
  List.NoDup keys ->
  result_field (finish (for_keys body keys)) k
  = if includes_key k keys then body k else None.
Proof.
  intros Hnd. unfold finish, for_keys.
  destruct (snd (fold_left _ keys _)) eqn:Hflag; simpl.
  - rewrite (fold_record_lookup body k keys ([], false) Hnd). simpl.
    destruct (includes_key k keys); [|reflexivity]. now destruct (body k).
  - apply fold_record_flag in Hflag as [_ Hnone].
    destruct (includes_key k keys) eqn:E; [|reflexivity].
    apply includes_key_In in E. symmetry. now apply Hnone.
Qed.

Lemma for_keys_none body keys :
  (forall k, In k keys -> body k = None) -> for_keys body keys = ([], false).
Proof.
  unfold for_keys. generalize ([] : list (string * value), false).
  induction keys as [|x keys IH]; intros acc H; simpl; [reflexivity|].
  rewrite (H x) by now left. simpl. apply IH. intros k Hk. apply H. now right.
Qed.

(** ** Values without [NaN] *)

Lemma nan_free_lookup (fs : list (string * value)) (k : string) (x : value) :
  forallb (fun p => nan_free (snd p)) fs = true -> lookup_field k fs = Some x ->
  nan_free x = true.
Proof.
  induction fs as [|[k' v] fs IH]; simpl; [discriminate|]. intros H Hk.
  apply andb_true_iff in H as [Hv Hfs]. destruct (String.eqb k k').
  - now inversion Hk; subst.
  - now apply IH.
Qed.

Lemma nan_free_get (v : value) (k : string) :
  nan_free v = true -> nan_free (get v k) = true.
Proof.
  destruct v; simpl; try reflexivity. intros H.
  destruct (lookup_field k fields) eqn:E; [|reflexivity].
  exact (nan_free_lookup _ _ _ H E).
Qed.

Lemma nan_free_at_index (v : value) (i : nat) :
  nan_free v = true -> nan_free (at_index v i) = true.
Proof.
  unfold at_index. destruct v; simpl; try (destruct i; reflexivity). intros H.
  revert i. induction items as [|x l IH]; intros [|i]; simpl in *;
    try reflexivity; apply andb_true_iff in H as [Hx Hl]; [exact Hx | now apply IH].
Qed.

(** ** The differ *)

Section DifferFacts.
Variable same_ref : value -> value -> bool.

Lemma opt_string_eqb_refl (s : option string) : opt_string_eqb s s = true.
Proof. destruct s; simpl; [apply String.eqb_refl | reflexivity]. Qed.

Lemma gtb_false (depth maxDepth : Z) : (depth >? maxDepth) = false -> depth <= maxDepth.
Proof. rewrite Z.gtb_ltb. apply Z.ltb_ge. Qed.

Lemma gtb_true (depth maxDepth : Z) : (depth >? maxDepth) = true -> maxDepth < depth.
Proof. rewrite Z.gtb_ltb. apply Z.ltb_lt. Qed.

Lemma levels_step (depth maxDepth : Z) (fuel : nat) :
  depth <= maxDepth -> (levels depth maxDepth <= S fuel)%nat ->
  (levels (depth + 1) maxDepth <= fuel)%nat.
Proof. unfold levels. lia. Qed.

(** Apart from [NaN], strict equality can only fail on a value itself
    through [same_ref]. *)
Lemma strict_eq_irrefl (v : value) :
  nan_free v = true ->
  strict_eq same_ref v v = false -> is_object v = true /\ is_nullish v = false.
Proof.
  destruct v; simpl; try discriminate; auto.
  - now rewrite Bool.eqb_reflx.
  - now rewrite Z.eqb_refl.
  - now rewrite String.eqb_refl.
Qed.

Lemma deepEqual_fuel_refl (fuel : nat) : forall v depth maxDepth,
  nan_free v = true ->
  (levels depth maxDepth <= fuel)%nat ->
  deepEqual_fuel same_ref fuel v v depth maxDepth = true.
Proof.
  induction fuel as [|fuel IH]; intros v depth maxDepth Hnan Hfuel; simpl;
    destruct (depth >? maxDepth) eqn:Hd; try apply opt_string_eqb_refl.
  - apply gtb_false in Hd. unfold levels in Hfuel. lia.
  - apply gtb_false in Hd.
    destruct (strict_eq same_ref v v) eqn:Hs; [reflexivity|].
    apply (strict_eq_irrefl v Hnan) in Hs as [Hobj Hnull]. rewrite Hnull, Hobj. simpl.
    assert (Hty : jstype_eqb (typeof v) (typeof v) = true) by now destruct (typeof v).
    rewrite Hty, Bool.eqb_reflx, !Nat.eqb_refl. simpl.
    destruct (is_array v).
    + apply forallb_forall. intros i _.
      apply IH; [now apply nan_free_at_index | now apply levels_step].
    + apply forallb_forall. intros key Hkey.
      rewrite (proj2 (includes_key_In key _) Hkey). simpl.
      apply IH; [now apply nan_free_get | now apply levels_step].
Qed.

Lemma deepEqual_refl (v : value) (depth maxDepth : Z) :
  nan_free v = true -> deepEqual same_ref v v depth maxDepth = true.
Proof. intros Hnan. apply deepEqual_fuel_refl; [exact Hnan | lia]. Qed.

(** Past the depth limit the differ reports nothing. *)
Lemma extract_fuel_cutoff fuel newValue oldValue depth maxDepth excl :
  maxDepth < depth ->
  extract_fuel same_ref fuel newValue oldValue depth maxDepth excl = VNull.
Proof.
  intros H. apply Z.ltb_lt in H. rewrite <- Z.gtb_ltb in H.
  destruct fuel; simpl; now rewrite H.
Qed.

(** Within the depth limit a call has a level of recursion left. *)
Lemma levels_pos (depth maxDepth : Z) :
  depth <= maxDepth -> exists fuel, levels depth maxDepth = S fuel
                                    /\ levels (depth + 1) maxDepth = fuel.
Proof.
  intros H. exists (levels (depth + 1) maxDepth). unfold levels. split; lia.
Qed.

Lemma extract_refl (v : value) (depth maxDepth : Z) (excl : list string) :
  nan_free v = true ->
  extractMeaningfulChanges same_ref v v depth maxDepth excl = VNull.
Proof.
  intros Hnan. unfold extractMeaningfulChanges.
  destruct (depth >? maxDepth) eqn:Hd.
  - apply extract_fuel_cutoff. now apply gtb_true.
  - destruct (levels_pos depth maxDepth (gtb_false _ _ Hd)) as (fuel & -> & _).
    simpl. now rewrite Hd, deepEqual_refl.
Qed.

(** A document without [NaN] compared with itself gives no change-set,
    whatever sharing there is between the two arguments. *)
Lemma formatChanges_unchanged (X : list (string * value))
    (cfg : ChangeFormatterOptions) :
  nan_free (VObj X) = true -> formatChanges same_ref X (Some X) cfg = VNull.
Proof.
  intros Hnan. unfold formatChanges. rewrite for_keys_none; [reflexivity|].
  intros k _. unfold format_key.
  destruct (opt_includes _ k); [reflexivity|].
  destruct (same_relationship _ _ _); [reflexivity|].
  destruct (flag _).
  - rewrite extract_refl; [reflexivity | now apply nan_free_get].
  - rewrite deepEqual_refl; [reflexivity | now apply nan_free_get].
Qed.

(** ** The recursion equations of the source

    The level counter never runs out before the depth test stops the
    recursion: both functions satisfy the equations of their source text. *)

Lemma deepEqual_unfold (a b : value) (depth maxDepth : Z) :
  deepEqual same_ref a b depth maxDepth =
  if depth >? maxDepth then opt_string_eqb (json_stringify a) (json_stringify b)
  else if strict_eq same_ref a b then true
  else if is_nullish a || is_nullish b then strict_eq same_ref a b
  else if negb (jstype_eqb (typeof a) (typeof b)) then false
  else if is_object a then
    if negb (Bool.eqb (is_array a) (is_array b)) then false
    else if is_array a then
      if negb (length (elements a) =? length (elements b))%nat then false
      else
        List.forallb
          (fun i => deepEqual same_ref (at_index a i) (at_index b i) (depth + 1) maxDepth)
          (seq 0 (length (elements a)))
    else
      if negb (length (own_keys a) =? length (own_keys b))%nat then false
      else
        List.forallb
          (fun key =>
             includes_key key (own_keys b)
             && deepEqual same_ref (get a key) (get b key) (depth + 1) maxDepth)
          (own_keys a)
  else false.
Proof.
  unfold deepEqual. destruct (depth >? maxDepth) eqn:Hd.
  - destruct (levels depth maxDepth); simpl; now rewrite Hd.
  - destruct (levels_pos depth maxDepth (gtb_false _ _ Hd)) as (fuel & -> & ->).
    simpl. now rewrite Hd.
Qed.

Lemma extractMeaningfulChanges_unfold (newValue oldValue : value)
    (depth maxDepth : Z) (excl : list string) :
  extractMeaningfulChanges same_ref newValue oldValue depth maxDepth excl =
  if depth >? maxDepth then VNull
  else if deepEqual same_ref newValue oldValue depth maxDepth then VNull
  else if is_nullish newValue || is_nullish oldValue then newValue
  else if negb (is_object newValue) || negb (is_object oldValue) then newValue
  else if is_array newValue && is_array oldValue then
    if negb (length (elements newValue) =? length (elements oldValue))%nat
    then newValue
    else if (length (ids_of newValue) =? length (ids_of oldValue))%nat
            && List.forallb (fun id => includes same_ref id (ids_of oldValue))
                 (ids_of newValue)
    then VNull
    else if List.existsb
              (fun index =>
                 if is_scalar (at_index newValue index)
                 then negb (strict_eq same_ref (at_index newValue index)
                              (at_index oldValue index))
                 else negb (deepEqual same_ref (at_index newValue index)
                              (at_index oldValue index) (depth + 1) maxDepth))
              (seq 0 (length (elements newValue)))
    then newValue else VNull
  else if is_array newValue || is_array oldValue then newValue
  else
    finish (for_keys
      (diff_key same_ref
         (fun newVal oldVal =>
            extractMeaningfulChanges same_ref newVal oldVal (depth + 1) maxDepth excl)
         newValue oldValue excl)
      (unique (own_keys newValue ++ own_keys oldValue))).
Proof.
  unfold extractMeaningfulChanges. destruct (depth >? maxDepth) eqn:Hd.
  - destruct (levels depth maxDepth); simpl; now rewrite Hd.
  - destruct (levels_pos depth maxDepth (gtb_false _ _ Hd)) as (fuel & -> & ->).
    simpl. now rewrite Hd.
Qed.

(** What the differ computes on two keyed maps that are not deep-equal. *)
Lemma extract_keyed_maps (nfs ofs : list (string * value)) (depth maxDepth : Z)
    (excl : list string) :
  depth <= maxDepth ->
  deepEqual same_ref (VObj nfs) (VObj ofs) depth maxDepth = false ->
  extractMeaningfulChanges same_ref (VObj nfs) (VObj ofs) depth maxDepth excl
  = finish (for_keys
      (diff_key same_ref
         (fun newVal oldVal =>
            extractMeaningfulChanges same_ref newVal oldVal (depth + 1) maxDepth excl)
         (VObj nfs) (VObj ofs) excl)
      (unique (map fst nfs ++ map fst ofs))).
Proof.
  intros Hd Hneq. unfold extractMeaningfulChanges.
  destruct (levels_pos depth maxDepth Hd) as (fuel & -> & ->).
  apply Z.ltb_ge in Hd. rewrite <- Z.gtb_ltb in Hd.
  simpl. now rewrite Hd, Hneq.
Qed.

Lemma strict_eq_string_sym (v : value) (s : string) :
  strict_eq same_ref v (VStr s) = true -> strict_eq same_ref (VStr s) v = true.
Proof.
  destruct v; simpl; try discriminate. now rewrite String.eqb_sym.
Qed.

(** The populated/unpopulated test only passes on equal identifiers. *)
Lemma same_relationship_ids (newVal oldVal : value) :
  same_relationship same_ref newVal oldVal = true ->
  strict_eq same_ref (id_of newVal) (id_of oldVal) = true.
Proof.
  unfold same_relationship, id_of. intros H.
  apply orb_true_iff in H as [H|H];
    apply andb_true_iff in H as [H Heq]; apply andb_true_iff in H as [Hs Ho].
  - rewrite Hs. destruct newVal; try discriminate.
    destruct oldVal; try discriminate; simpl in *; try discriminate;
      now apply strict_eq_string_sym.
  - rewrite Hs. destruct oldVal; try discriminate.
    destruct newVal; try discriminate; simpl in *; try discriminate; exact Heq.
Qed.

Lemma get_missing (fs : list (string * value)) (k : string) :
  ~ In k (map fst fs) -> get (VObj fs) k = VUndef.
Proof. intros H. simpl. now rewrite lookup_field_not_In. Qed.

(** The change map that the differ computes for two keyed maps has no
    excluded key. *)
Lemma differ_skips_excluded (nfs ofs : list (string * value))
    (depth maxDepth : Z) (excl : list string) (k : string) :
  In k excl ->
  result_field
    (extractMeaningfulChanges same_ref (VObj nfs) (VObj ofs) depth maxDepth excl) k
  = None.
Proof.
  intros Hin. apply includes_key_In in Hin.
  rewrite extractMeaningfulChanges_unfold.
  destruct (depth >? maxDepth); [reflexivity|].
  destruct (deepEqual _ _ _ _ _); [reflexivity|]. simpl.
  rewrite for_keys_field by apply unique_NoDup.
  unfold diff_key. rewrite Hin. now destruct (includes_key k (unique _)).
Qed.

(** C7 (amended): a field name listed in [excludeFields] (the list the
    formatter works with, the supplied one or else the default one) is
    never a key of the change-set, for every pair of documents and however
    its values differ, and never a key of a change map that the differ
    computes for two keyed maps at any nesting depth.  The values that the
    change-set hands back whole (the old side of an entry, a new value that
    is not compared key by key) are not filtered. *)
Theorem excluded_field_absent (newDoc oldDoc : list (string * value))
    (cfg : ChangeFormatterOptions) (excluded : list string) (key : string) :
  excludeFields (spread defaultChangeFormatterOptions cfg) = Some excluded ->
  In key excluded ->
  result_field (formatChanges same_ref newDoc (Some oldDoc) cfg) key = None
  /\ (forall (nfs ofs : list (string * value)) (depth maxDepth : Z),
        result_field
          (extractMeaningfulChanges same_ref (VObj nfs) (VObj ofs) depth maxDepth
             excluded) key
        = None).
Proof.
  intros Hex Hin. split.
  - unfold formatChanges.
    rewrite for_keys_field by apply unique_NoDup.
    destruct (includes_key key _); [|reflexivity].
    unfold format_key. rewrite Hex. simpl.
    now rewrite (proj2 (includes_key_In key excluded) Hin).
  - intros nfs ofs depth maxDepth. now apply differ_skips_excluded.
Qed.



(** C4 (amended): in the comparison of two keyed maps, for a key that is
    not excluded and whose value is reference-shaped on either side, a
    change record [{old: oldId, new: newId}] is produced exactly when both
    extracted identifiers are present (truthy) and differ; otherwise the
    key is skipped, also when one side has no identifier. *)
Theorem reference_field_change (nfs ofs : list (string * value))
    (depth maxDepth : Z) (excl : list string) (k : string) :
  depth <= maxDepth ->
  deepEqual same_ref (VObj nfs) (VObj ofs) depth maxDepth = false ->
  includes_key k excl = false ->
  isRelationshipField k (get (VObj nfs) k) || isRelationshipField k (get (VObj ofs) k)
    = true ->
  let newId := id_of (get (VObj nfs) k) in
  let oldId := id_of (get (VObj ofs) k) in
  result_field
    (extractMeaningfulChanges same_ref (VObj nfs) (VObj ofs) depth maxDepth excl) k
  = if truthy newId && truthy oldId && negb (strict_eq same_ref newId oldId)
    then Some (VObj [("old", oldId); ("new", newId)])
    else None.
Proof.
  intros Hd Hneq Hexcl Hrel newId oldId. subst newId oldId.
  rewrite extract_keyed_maps by assumption.
  rewrite for_keys_field by apply unique_NoDup.
  destruct (includes_key k (unique _)) eqn:Hin.
  - unfold diff_key. rewrite Hexcl.
    destruct (same_relationship same_ref _ _) eqn:Hsame.
    + apply same_relationship_ids in Hsame. rewrite Hsame.
      now rewrite andb_false_r.
    + now rewrite Hrel.
  - apply includes_key_not_In in Hin. rewrite unique_In, in_app_iff in Hin.
    rewrite !get_missing in Hrel by tauto. discriminate Hrel.
Qed.

(** What the formatter leaves at a field of the change-set. *)
Lemma formatChanges_field (newDoc oldDoc : list (string * value))
    (cfg : ChangeFormatterOptions) (key : string) :
  format_key same_ref (spread defaultChangeFormatterOptions cfg)
    (VObj newDoc) (VObj oldDoc) key = None ->
  result_field (formatChanges same_ref newDoc (Some oldDoc) cfg) key = None.
Proof.
  intros H. unfold formatChanges.
  rewrite for_keys_field by apply unique_NoDup. rewrite H.
  now destruct (includes_key key _).
Qed.



(** The rule of the array branch: equal lengths, as many identifiers on
    both sides and every new identifier among the old ones. *)
Lemma same_ids_no_change (xs ys : list value) (depth maxDepth : Z)
    (excl : list string) :
  length xs = length ys ->
  length (ids_of (VArr xs)) = length (ids_of (VArr ys)) ->
  List.forallb (fun id => includes same_ref id (ids_of (VArr ys))) (ids_of (VArr xs))
    = true ->
  extractMeaningfulChanges same_ref (VArr xs) (VArr ys) depth maxDepth excl = VNull.
Proof.
  intros Hlen Hids Hall. unfold extractMeaningfulChanges.
  destruct (depth >? maxDepth) eqn:Hd.
  - apply extract_fuel_cutoff. now apply gtb_true.
  - destruct (levels_pos depth maxDepth (gtb_false _ _ Hd)) as (fuel & -> & _).
    simpl. rewrite Hd.
    destruct (deepEqual same_ref (VArr xs) (VArr ys) depth maxDepth); [reflexivity|].
    simpl. rewrite Hlen, Nat.eqb_refl. simpl.
    fold (ids_of (VArr xs)) (ids_of (VArr ys)).
    now rewrite Hids, Nat.eqb_refl, Hall.
Qed.

Definition old_items : value := VArr [VObj [("id", VStr "a")]; VObj [("id", VStr "b")]].
Definition new_items : value := VArr [VObj [("id", VStr "a")]; VObj [("id", VStr "a")]].

(** C10: the arrays [[{id: "a"}, {id: "b"}]] (old) and
    [[{id: "a"}, {id: "a"}]] (new) have equal lengths and different
    identifier sets, yet with meaningful changes only (the default)
    [formatChanges] omits the field and returns [null]: every identifier
    of the new array occurs among the old ones and the counts agree. *)
Theorem duplicate_ids_unreported (excl : option (list string)) (depth : option Z) :
  let cfg m := {| excludeFields := excl; meaningfulChangesOnly := m; maxDepth := depth |} in
  formatChanges same_ref [("items", new_items)] (Some [("items", old_items)]) (cfg None)
    = VNull
  /\ formatChanges same_ref [("items", new_items)] (Some [("items", old_items)])
       (cfg (Some true)) = VNull
  /\ includes same_ref (VStr "b") (ids_of old_items) = true
  /\ includes same_ref (VStr "b") (ids_of new_items) = false
  /\ length (elements new_items) = length (elements old_items).
Proof.
  intros cfg.
  assert (Hkey : forall m, flag (meaningfulChangesOnly
                    (spread defaultChangeFormatterOptions (cfg m))) = true ->
    formatChanges same_ref [("items", new_items)] (Some [("items", old_items)]) (cfg m)
    = VNull).
  { intros m Hm. unfold formatChanges. rewrite for_keys_none; [reflexivity|].
    intros k Hk. assert (k = "items") as -> by (destruct Hk as [<-|[]]; reflexivity).
    unfold format_key.
    destruct (opt_includes _ _); [reflexivity|].
    change (get (VObj [("items", new_items)]) "items") with new_items.
    change (get (VObj [("items", old_items)]) "items") with old_items.
    change (same_relationship same_ref new_items old_items) with false. cbv iota.
    rewrite Hm. unfold new_items, old_items. now rewrite same_ids_no_change. }
  repeat split; try (apply Hkey; reflexivity).
Qed.

(** C9: [shouldLogChanges] is [true] exactly when the change-set is not
    [null] and has at least [minChanges] top-level fields; with the default
    [minChanges = 1] it is [false] exactly when the change-set is [null] or
    empty. *)
Theorem shouldLogChanges_spec (changes : option (list (string * value)))
    (minChanges : Z) :
  (shouldLogChanges changes (Some minChanges) = true
   <-> exists fields, changes = Some fields
                      /\ minChanges <= Z.of_nat (length fields))
  /\ (shouldLogChanges changes None = false
      <-> changes = None \/ changes = Some []).
Proof.
  unfold shouldLogChanges. destruct changes as [fields|]; simpl.
  - rewrite length_map, !Z.geb_leb. split.
    + rewrite Z.leb_le. split.
      * intros H. now exists fields.
      * intros (f & [= <-] & H). exact H.
    + rewrite Z.leb_gt. split.
      * intros H. right. destruct fields; [reflexivity | simpl in H; lia].
      * intros [H|[= ->]]; [discriminate | simpl; lia].
  - split; split; try tauto; try discriminate.
    intros (f & H & _). discriminate H.
Qed.

(** Two keyed maps met at depth [maxDepth] yield no change when none of
    their fields is reference-shaped: every field is past the limit. *)
Lemma extract_boundary (nfs ofs : list (string * value)) (maxDepth : Z)
    (excl : list string) :
  (forall k, isRelationshipField k (get (VObj nfs) k) = false
             /\ isRelationshipField k (get (VObj ofs) k) = false) ->
  extractMeaningfulChanges same_ref (VObj nfs) (VObj ofs) maxDepth maxDepth excl
  = VNull.
Proof.
  intros Hplain. rewrite extractMeaningfulChanges_unfold.
  destruct (maxDepth >? maxDepth); [reflexivity|].
  destruct (deepEqual same_ref _ _ _ _); [reflexivity|]. simpl.
  rewrite for_keys_none; [reflexivity|].
  intros k _. unfold diff_key.
  destruct (includes_key k excl); [reflexivity|].
  destruct (same_relationship _ _ _); [reflexivity|].
  destruct (Hplain k) as [-> ->]. simpl.
  unfold extractMeaningfulChanges. rewrite extract_fuel_cutoff by lia.
  reflexivity.
Qed.

(** *** Differences below the depth limit *)

(** Two values differ only below the depth limit: both are keyed maps
    without reference-shaped fields, and field by field the two values are
    deep-equal or differ, in turn, only below the limit.  The fields of a
    keyed map met at depth [maxDepth] lie past the limit and are free. *)
Fixpoint differs_below_fuel (fuel : nat) (newValue oldValue : value)
    (depth maxDepth : Z) {struct fuel} : bool :=
  match newValue, oldValue with
  | VObj _, VObj _ =>
      List.forallb
        (fun key =>
           let newVal := get newValue key in
           let oldVal := get oldValue key in
           negb (isRelationshipField key newVal)
           && negb (isRelationshipField key oldVal)
           && ((maxDepth <=? depth)%Z
               || deepEqual same_ref newVal oldVal (depth + 1) maxDepth
               || match fuel with
                  | O => false
                  | S fuel' =>
                      differs_below_fuel fuel' newVal oldVal (depth + 1) maxDepth
                  end))
        (unique (own_keys newValue ++ own_keys oldValue))
  | _, _ => false
  end.

(** The same for the two values of a top-level field, which the formatter
    hands to the differ at depth 0. *)
Definition differs_only_below (newValue oldValue : value) (maxDepth : Z) : bool :=
  differs_below_fuel (Z.to_nat maxDepth) newValue oldValue 0 maxDepth.

Lemma differs_below_fuel_eq (fuel : nat) (nfs ofs : list (string * value))
    (depth maxDepth : Z) :
  differs_below_fuel fuel (VObj nfs) (VObj ofs) depth maxDepth
  = List.forallb
      (fun key =>
         negb (isRelationshipField key (get (VObj nfs) key))
         && negb (isRelationshipField key (get (VObj ofs) key))
         && ((maxDepth <=? depth)%Z
             || deepEqual same_ref (get (VObj nfs) key) (get (VObj ofs) key)
                  (depth + 1) maxDepth
             || match fuel with
                | O => false
                | S fuel' =>
                    differs_below_fuel fuel' (get (VObj nfs) key) (get (VObj ofs) key)
                      (depth + 1) maxDepth
                end))
      (unique (map fst nfs ++ map fst ofs)).
Proof. destruct fuel; reflexivity. Qed.

(** The differ reports nothing for two values that differ only below the
    depth limit. *)
Lemma extract_differs_below (fuel : nat) : forall newValue oldValue depth maxDepth excl,
  differs_below_fuel fuel newValue oldValue depth maxDepth = true ->
  extractMeaningfulChanges same_ref newValue oldValue depth maxDepth excl = VNull.
Proof.
  induction fuel as [|fuel IH]; intros newValue oldValue depth maxDepth excl H.
  all: destruct newValue as [| | | | | | |nfs]; try discriminate H.
  all: destruct oldValue as [| | | | | | |ofs]; try discriminate H.
  all: rewrite differs_below_fuel_eq in H.
  all: rewrite extractMeaningfulChanges_unfold.
  all: destruct (depth >? maxDepth); [reflexivity|].
  all: destruct (deepEqual same_ref _ _ _ _); [reflexivity|]; simpl.
  all: rewrite for_keys_none; [reflexivity|].
  all: intros k Hk; pose proof (proj1 (forallb_forall _ _) H k Hk) as Hfield.
  all: apply andb_true_iff in Hfield as [Hfield Hsub].
  all: apply andb_true_iff in Hfield as [Hn Ho].
  all: apply negb_true_iff in Hn, Ho.
  all: unfold diff_key; destruct (includes_key k excl); [reflexivity|].
  all: destruct (same_relationship _ _ _); [reflexivity|].
  all: rewrite Hn, Ho; cbv beta iota zeta; change (false || false) with false;
    cbv iota.
  - assert (Hrec : extractMeaningfulChanges same_ref (get (VObj nfs) k)
                      (get (VObj ofs) k) (depth + 1) maxDepth excl = VNull).
    { rewrite orb_false_r in Hsub. apply orb_true_iff in Hsub as [Hsub|Hsub].
      - apply Z.leb_le in Hsub. unfold extractMeaningfulChanges.
        apply extract_fuel_cutoff. lia.
      - rewrite extractMeaningfulChanges_unfold, Hsub.
        now destruct (depth + 1 >? maxDepth). }
    now rewrite Hrec.
  - assert (Hrec : extractMeaningfulChanges same_ref (get (VObj nfs) k)
                      (get (VObj ofs) k) (depth + 1) maxDepth excl = VNull).
    { apply orb_true_iff in Hsub as [Hsub|Hsub];
        [apply orb_true_iff in Hsub as [Hsub|Hsub]|].
      - apply Z.leb_le in Hsub. unfold extractMeaningfulChanges.
        apply extract_fuel_cutoff. lia.
      - rewrite extractMeaningfulChanges_unfold, Hsub.
        now destruct (depth + 1 >? maxDepth).
      - now apply IH. }
    now rewrite Hrec.
Qed.

(** C1 (amended): a comparison the differ enters at a nesting depth
    strictly greater than [maxDepth] yields no change, for every pair of
    values; hence two keyed maps compared at depth [maxDepth] whose fields
    are not reference-shaped yield no change, however those fields differ;
    and with meaningful changes only, for every pair of documents, a
    top-level field whose old and new values differ only below the limit
    (keyed maps without reference-shaped fields whose fields are, level by
    level down to depth [maxDepth], deep-equal or again such keyed maps) has
    no entry in the change-set: neither a per-leaf diff nor a
    replacement. *)
Theorem depth_cutoff_drops_changes :
  (forall (newValue oldValue : value) (depth maxDepth : Z) (excl : list string),
      maxDepth < depth ->
      extractMeaningfulChanges same_ref newValue oldValue depth maxDepth excl = VNull)
  /\ (forall (nfs ofs : list (string * value)) (maxDepth : Z) (excl : list string),
        (forall k, isRelationshipField k (get (VObj nfs) k) = false
                   /\ isRelationshipField k (get (VObj ofs) k) = false) ->
        extractMeaningfulChanges same_ref (VObj nfs) (VObj ofs) maxDepth maxDepth excl
        = VNull)
  /\ (forall (newDoc oldDoc : list (string * value)) (cfg : ChangeFormatterOptions)
             (field : string),
        let opts := spread defaultChangeFormatterOptions cfg in
        flag (meaningfulChangesOnly opts) = true ->
        differs_only_below (get (VObj newDoc) field) (get (VObj oldDoc) field)
          (or_default (maxDepth opts) 5) = true ->
        result_field (formatChanges same_ref newDoc (Some oldDoc) cfg) field = None).
Proof.
  split; [|split].
  - intros. now apply extract_fuel_cutoff.
  - apply extract_boundary.
  - intros newDoc oldDoc cfg field opts Hflag Hdeep.
    apply formatChanges_field. unfold format_key. fold opts.
    destruct (opt_includes _ field); [reflexivity|].
    destruct (same_relationship _ _ _); [reflexivity|].
    rewrite Hflag.
    now rewrite (extract_differs_below _ _ _ _ _ _ Hdeep).
Qed.

(** ** [deepEqual] as a relation *)

(** The representation invariant of a value: the keys of every keyed map
    in it are pairwise distinct. *)
Fixpoint distinct_keys (keys : list string) : bool :=
  match keys with
  | [] => true
  | k :: keys' => negb (includes_key k keys') && distinct_keys keys'
  end.

Fixpoint well_formed (v : value) : bool :=
  match v with
  | VArr l => List.forallb well_formed l
  | VObj fs =>
      distinct_keys (map fst fs) && List.forallb (fun p => well_formed (snd p)) fs
  | _ => true
  end.

Lemma distinct_keys_NoDup (keys : list string) :
  distinct_keys keys = true -> List.NoDup keys.
Proof.
  induction keys as [|k keys IH]; simpl; [constructor|].
  intros H. apply andb_true_iff in H as [Hk Hrest].
  constructor; [|now apply IH].
  apply negb_true_iff in Hk. now apply includes_key_not_In.
Qed.

Lemma well_formed_keys (v : value) :
  well_formed v = true -> List.NoDup (own_keys v).
Proof.
  destruct v; simpl; try (intros; constructor).
  intros H. apply andb_true_iff in H as [H _]. now apply distinct_keys_NoDup.
Qed.

Lemma well_formed_at_index (v : value) (i : nat) :
  well_formed v = true -> well_formed (at_index v i) = true.
Proof.
  unfold at_index. destruct v; simpl; try (destruct i; reflexivity).
  intros H. destruct (Nat.lt_ge_cases i (length items)) as [Hlt|Hge].
  - apply (proj1 (forallb_forall _ _) H). now apply nth_In.
  - now rewrite nth_overflow.
Qed.

Lemma well_formed_get (v : value) (k : string) :
  well_formed v = true -> well_formed (get v k) = true.
Proof.
  destruct v; simpl; try reflexivity.
  intros H. apply andb_true_iff in H as [_ H].
  induction fields as [|[k' x] fs IH]; simpl in *; [reflexivity|].
  apply andb_true_iff in H as [Hx Hfs].
  destruct (String.eqb k k'); [exact Hx | now apply IH].
Qed.

Lemma opt_string_eqb_sym (s t : option string) :
  opt_string_eqb s t = opt_string_eqb t s.
Proof. destruct s, t; simpl; auto using String.eqb_sym. Qed.

Lemma jstype_eqb_sym (s t : jstype) : jstype_eqb s t = jstype_eqb t s.
Proof. now destruct s, t. Qed.

Lemma jstype_eqb_eq (s t : jstype) : jstype_eqb s t = true -> s = t.
Proof. destruct s, t; simpl; congruence. Qed.

Lemma forallb_pointwise {A : Type} (f g : A -> bool) (l : list A) :
  (forall x, In x l -> f x = g x) -> List.forallb f l = List.forallb g l.
Proof.
  induction l as [|x l IH]; simpl; [reflexivity|]. intros H.
  rewrite (H x) by now left. rewrite IH; [reflexivity|].
  intros y Hy. apply H. now right.
Qed.

(** Two duplicate-free key lists of one length, one inside the other,
    hold the same keys. *)
Lemma keys_swap (keysA keysB : list string) (P Q : string -> bool) :
  List.NoDup keysA -> length keysA = length keysB ->
  (forall k, P k = Q k) ->
  List.forallb (fun k => includes_key k keysB && P k) keysA = true ->
  List.forallb (fun k => includes_key k keysA && Q k) keysB = true.
Proof.
  intros Hnd Hlen HPQ H.
  assert (Hall : forall k, In k keysA -> In k keysB /\ P k = true).
  { intros k Hk. apply (proj1 (forallb_forall _ _) H) in Hk.
    apply andb_true_iff in Hk as [Hk HP]. split; [now apply includes_key_In | exact HP]. }
  assert (Hincl : incl keysB keysA).
  { apply NoDup_length_incl; [exact Hnd | lia |]. intros k Hk. now apply Hall. }
  apply forallb_forall. intros k Hk. apply Hincl in Hk.
  rewrite (proj2 (includes_key_In k keysA) Hk). simpl.
  rewrite <- HPQ. now apply Hall.
Qed.

Section SymmetricReferences.
Hypothesis same_ref_sym : forall x y, same_ref x y = same_ref y x.

Lemma strict_eq_sym (a b : value) : strict_eq same_ref a b = strict_eq same_ref b a.
Proof.
  destruct a, b; simpl; auto using Z.eqb_sym, String.eqb_sym.
  now destruct b, b0.
Qed.

Lemma deepEqual_fuel_sym (fuel : nat) : forall a b depth maxDepth,
  well_formed a = true -> well_formed b = true ->
  deepEqual_fuel same_ref fuel a b depth maxDepth
  = deepEqual_fuel same_ref fuel b a depth maxDepth.
Proof.
  induction fuel as [|fuel IH]; intros a b depth maxDepth Ha Hb; simpl;
    destruct (depth >? maxDepth); try apply opt_string_eqb_sym; try reflexivity.
  rewrite (strict_eq_sym a b). destruct (strict_eq same_ref b a); [reflexivity|].
  rewrite (orb_comm (is_nullish a)). destruct (is_nullish b || is_nullish a); [reflexivity|].
  rewrite (jstype_eqb_sym (typeof a)).
  destruct (jstype_eqb (typeof b) (typeof a)) eqn:Hty; [|reflexivity].
  apply jstype_eqb_eq in Hty. unfold is_object. rewrite Hty.
  destruct (jstype_eqb (typeof a) TObject); [|reflexivity].
  destruct (is_array a) eqn:Haa, (is_array b) eqn:Hab; simpl; try reflexivity.
  - rewrite (Nat.eqb_sym (length (elements a))).
    destruct (length (elements b) =? length (elements a))%nat eqn:Hlen; [|reflexivity].
    apply Nat.eqb_eq in Hlen. simpl. rewrite Hlen.
    apply forallb_pointwise. intros i _.
    apply IH; now apply well_formed_at_index.
  - rewrite (Nat.eqb_sym (length (own_keys a))).
    destruct (length (own_keys b) =? length (own_keys a))%nat eqn:Hlen; [|reflexivity].
    apply Nat.eqb_eq in Hlen. simpl.
    apply eq_true_iff_eq. split; apply keys_swap;
      auto using well_formed_keys; intros k; apply IH; now apply well_formed_get.
Qed.

End SymmetricReferences.

(** [deepEqual] is reflexive, at every depth and for every limit, on the
    values that hold no [NaN]; within the limit [NaN] is not deep-equal to
    itself, past the limit it is (both print as [null]).  When reference
    identity is symmetric, [deepEqual] is symmetric on values whose keyed
    maps have distinct keys. *)
Theorem deepEqual_reflexive_symmetric (a b : value) (depth maxDepth : Z) :
  (nan_free a = true -> deepEqual same_ref a a depth maxDepth = true)
  /\ deepEqual same_ref VNaN VNaN depth maxDepth = (depth >? maxDepth)
  /\ ((forall x y, same_ref x y = same_ref y x) ->
      well_formed a = true -> well_formed b = true ->
      deepEqual same_ref a b depth maxDepth = deepEqual same_ref b a depth maxDepth).
Proof.
  split; [apply deepEqual_refl | split].
  - rewrite deepEqual_unfold. now destruct (depth >? maxDepth).
  - intros Hsym Ha Hb. now apply deepEqual_fuel_sym.
Qed.

(** ** What the formatter reports for a top-level field *)

Lemma lookup_field_In k fs v : lookup_field k fs = Some v -> In k (map fst fs).
Proof.
  induction fs as [|[k' x] fs IH]; simpl; [discriminate|].
  destruct (String.eqb k k') eqn:E.
  - apply String.eqb_eq in E. subst. now left.
  - intros H. right. now apply IH.
Qed.

Lemma get_defined_In (fs : list (string * value)) (k : string) :
  get (VObj fs) k <> VUndef -> In k (map fst fs).
Proof.
  simpl. destruct (lookup_field k fs) eqn:E; [|congruence].
  intros _. now apply (lookup_field_In k fs v).
Qed.

(** The field of the change-set, for a key that either snapshot carries. *)
Lemma formatChanges_key (newDoc oldDoc : list (string * value))
    (cfg : ChangeFormatterOptions) (k : string) :
  In k (map fst newDoc) \/ In k (map fst oldDoc) ->
  result_field (formatChanges same_ref newDoc (Some oldDoc) cfg) k
  = format_key same_ref (spread defaultChangeFormatterOptions cfg)
      (VObj newDoc) (VObj oldDoc) k.
Proof.
  intros Hin. unfold formatChanges.
  rewrite for_keys_field by apply unique_NoDup.
  assert (Hk : includes_key k (unique (own_keys (VObj newDoc) ++ own_keys (VObj oldDoc)))
               = true).
  { apply includes_key_In, unique_In, in_app_iff. exact Hin. }
  now rewrite Hk.
Qed.

Lemma json_stringify_defined (v : value) :
  v <> VUndef -> json_stringify v <> None.
Proof. destruct v as [| |[]| | | | |]; simpl; congruence. Qed.

Lemma strict_eq_undefined (v : value) :
  v <> VUndef -> strict_eq same_ref VUndef v = false /\ strict_eq same_ref v VUndef = false.
Proof. destruct v; simpl; intros H; try congruence; auto. Qed.

(** Comparing with [undefined]: only [undefined] is deep-equal to it. *)
Lemma deepEqual_undefined (v : value) (depth maxDepth : Z) :
  v <> VUndef ->
  deepEqual same_ref VUndef v depth maxDepth = false
  /\ deepEqual same_ref v VUndef depth maxDepth = false.
Proof.
  intros Hv. rewrite !deepEqual_unfold.
  destruct (strict_eq_undefined v Hv) as [-> ->].
  pose proof (json_stringify_defined v Hv) as Hs.
  destruct (depth >? maxDepth); simpl.
  - destruct (json_stringify v); [auto | congruence].
  - rewrite orb_true_r. auto.
Qed.

(** A field that is set to [null] is never reported with meaningful
    changes only, whatever its previous value was: the differ hands back
    the new value [null], which the formatter reads as "no change". *)
Theorem null_assignment_unreported (newDoc oldDoc : list (string * value))
    (cfg : ChangeFormatterOptions) (k : string) :
  flag (meaningfulChangesOnly (spread defaultChangeFormatterOptions cfg)) = true ->
  get (VObj newDoc) k = VNull ->
  result_field (formatChanges same_ref newDoc (Some oldDoc) cfg) k = None.
Proof.
  intros Hflag Hnull. apply formatChanges_field. unfold format_key.
  destruct (opt_includes _ k); [reflexivity|].
  destruct (same_relationship _ _ _); [reflexivity|].
  rewrite Hflag, Hnull, extractMeaningfulChanges_unfold.
  destruct (_ >? _); [reflexivity|].
  destruct (deepEqual _ _ _ _ _); reflexivity.
Qed.

(** Within a non-negative depth limit, a top-level field that is not
    excluded and that only the old snapshot carries is reported as
    [{old: v, new: undefined}], and one that only the new snapshot carries,
    with a value other than [null], as [{old: undefined, new: v}], in both
    modes of the formatter. *)
Theorem added_and_removed_fields_reported (newDoc oldDoc : list (string * value))
    (cfg : ChangeFormatterOptions) (k : string) (v : value) :
  let opts := spread defaultChangeFormatterOptions cfg in
  0 <= or_default (maxDepth opts) 5 ->
  opt_includes (excludeFields opts) k = false ->
  v <> VUndef ->
  (get (VObj oldDoc) k = v -> get (VObj newDoc) k = VUndef ->
   result_field (formatChanges same_ref newDoc (Some oldDoc) cfg) k
   = Some (change_record v VUndef))
  /\ (get (VObj newDoc) k = v -> get (VObj oldDoc) k = VUndef -> v <> VNull ->
      result_field (formatChanges same_ref newDoc (Some oldDoc) cfg) k
      = Some (change_record VUndef v)).
Proof.
  intros opts Hdepth Hexcl Hv.
  destruct (deepEqual_undefined v 0 (or_default (maxDepth opts) 5) Hv) as [Hu1 Hu2].
  assert (Hgt : (0 >? or_default (maxDepth opts) 5) = false).
  { rewrite Z.gtb_ltb. apply Z.ltb_ge. exact Hdepth. }
  split.
  - intros Hold Hnew.
    rewrite formatChanges_key by (right; apply get_defined_In; congruence).
    unfold format_key. fold opts. rewrite Hexcl, Hold, Hnew.
    assert (Hrel : same_relationship same_ref VUndef v = false).
    { unfold same_relationship. simpl. now rewrite andb_false_r. }
    rewrite Hrel, extractMeaningfulChanges_unfold, Hgt, Hu1. simpl.
    now destruct (flag _).
  - intros Hnew Hold Hnn.
    rewrite formatChanges_key by (left; apply get_defined_In; congruence).
    unfold format_key. fold opts. rewrite Hexcl, Hold, Hnew.
    assert (Hrel : same_relationship same_ref v VUndef = false).
    { unfold same_relationship. simpl. now rewrite andb_false_r. }
    rewrite Hrel, extractMeaningfulChanges_unfold, Hgt, Hu2.
    rewrite orb_true_r.
    destruct (flag _); [|reflexivity].
    destruct v; try reflexivity; congruence.
Qed.

(** Within a non-negative depth limit, a top-level field that is not
    excluded and holds a string, number or boolean on both sides is
    reported, as [{old, new}] with both raw values, exactly when the two
    values are not strictly equal, in both modes of the formatter. *)
Theorem scalar_field_reported (newDoc oldDoc : list (string * value))
    (cfg : ChangeFormatterOptions) (k : string) :
  let opts := spread defaultChangeFormatterOptions cfg in
  let newValue := get (VObj newDoc) k in
  let oldValue := get (VObj oldDoc) k in
  0 <= or_default (maxDepth opts) 5 ->
  opt_includes (excludeFields opts) k = false ->
  is_scalar newValue = true -> is_scalar oldValue = true ->
  result_field (formatChanges same_ref newDoc (Some oldDoc) cfg) k
  = if strict_eq same_ref newValue oldValue then None
    else Some (change_record oldValue newValue).
Proof.
  intros opts newValue oldValue Hdepth Hexcl Hn Ho.
  assert (Hgt : (0 >? or_default (maxDepth opts) 5) = false).
  { rewrite Z.gtb_ltb. apply Z.ltb_ge. exact Hdepth. }
  assert (HnewV : get (VObj newDoc) k = newValue) by reflexivity.
  assert (HoldV : get (VObj oldDoc) k = oldValue) by reflexivity.
  clearbody newValue oldValue.
  assert (Hin : In k (map fst newDoc)).
  { apply get_defined_In. rewrite HnewV. intros ->. discriminate Hn. }
  rewrite formatChanges_key by now left.
  unfold format_key. fold opts. rewrite HnewV, HoldV, Hexcl.
  assert (Hrel : same_relationship same_ref newValue oldValue = false).
  { unfold same_relationship.
    destruct newValue, oldValue; simpl in Hn, Ho; try discriminate; reflexivity. }
  assert (Heq : deepEqual same_ref newValue oldValue 0 (or_default (maxDepth opts) 5)
                = strict_eq same_ref newValue oldValue).
  { rewrite deepEqual_unfold, Hgt.
    destruct (strict_eq same_ref newValue oldValue) eqn:Hs; [reflexivity|].
    destruct newValue, oldValue; simpl in Hn, Ho; try discriminate; reflexivity. }
  rewrite Hrel, extractMeaningfulChanges_unfold, Hgt, Heq.
  destruct (strict_eq same_ref newValue oldValue); [now destruct (flag _)|].
  destruct (flag _); [|reflexivity].
  destruct newValue, oldValue; simpl in Hn, Ho; try discriminate; reflexivity.
Qed.

(** Every entry of the change-set belongs to a key of one of the two
    snapshots that is not excluded, and has the shape [{old, new}] whose
    [old] side is the raw previous value of the field. *)
Theorem change_record_shape (newDoc oldDoc : list (string * value))
    (cfg : ChangeFormatterOptions) (k : string) (c : value) :
  result_field (formatChanges same_ref newDoc (Some oldDoc) cfg) k = Some c ->
  (exists newSide, c = change_record (get (VObj oldDoc) k) newSide)
  /\ (In k (map fst newDoc) \/ In k (map fst oldDoc))
  /\ opt_includes (excludeFields (spread defaultChangeFormatterOptions cfg)) k = false.
Proof.
  unfold formatChanges. rewrite for_keys_field by apply unique_NoDup.
  destruct (includes_key k _) eqn:Hin; [|discriminate].
  apply includes_key_In, unique_In, in_app_iff in Hin.
  unfold format_key.
  destruct (opt_includes _ k); [discriminate|].
  destruct (same_relationship _ _ _); [discriminate|].
  destruct (flag _).
  - destruct (not_null _); [|discriminate].
    intros [= <-]. repeat split; eauto.
  - destruct (negb _); [|discriminate].
    intros [= <-]. repeat split; eauto.
Qed.

Lemma obj_set_nonempty fs k c : obj_set fs k c <> [].
Proof. destruct fs as [|[k' v] fs]; simpl; [|destruct (String.eqb k k')]; discriminate. Qed.

Lemma fold_record_nonempty body keys : forall acc,
  (snd acc = true -> fst acc <> []) ->
  snd (fold_left (fun acc key => record_change acc key (body key)) keys acc) = true ->
  fst (fold_left (fun acc key => record_change acc key (body key)) keys acc) <> [].
Proof.
  induction keys as [|x keys IH]; intros acc Hacc; simpl; [exact Hacc|].
  apply IH. destruct (body x); simpl; [|exact Hacc].
  intros _. apply obj_set_nonempty.
Qed.

Lemma finish_nonempty body keys :
  finish (for_keys body keys) = VNull
  \/ exists fs, finish (for_keys body keys) = VObj fs /\ fs <> [].
Proof.
  unfold finish, for_keys.
  destruct (snd (fold_left _ keys _)) eqn:Hflag; [right | now left].
  eexists. split; [reflexivity|].
  apply fold_record_nonempty; [simpl; discriminate | exact Hflag].
Qed.

Lemma formatChanges_null_or_nonempty (newDoc oldDoc : list (string * value))
    (cfg : ChangeFormatterOptions) :
  formatChanges same_ref newDoc (Some oldDoc) cfg = VNull
  \/ exists fs, formatChanges same_ref newDoc (Some oldDoc) cfg = VObj fs /\ fs <> [].
Proof. unfold formatChanges. apply finish_nonempty. Qed.

(** Against a present previous snapshot [formatChanges] returns [null]
    or a map with at least one field, never an empty map; hence
    [shouldLogChanges], with its default threshold, accepts the result
    exactly when it is not [null]. *)
Theorem formatChanges_never_empty (newDoc oldDoc : list (string * value))
    (cfg : ChangeFormatterOptions) :
  let changes := formatChanges same_ref newDoc (Some oldDoc) cfg in
  (changes = VNull \/ exists fs, changes = VObj fs /\ fs <> [])
  /\ shouldLogChanges (as_change_set changes) None = not_null changes.
Proof.
  intros changes. subst changes. unfold formatChanges.
  destruct (finish_nonempty
              (format_key same_ref (spread defaultChangeFormatterOptions cfg)
                 (VObj newDoc) (VObj oldDoc))
              (unique (own_keys (VObj newDoc) ++ own_keys (VObj oldDoc))))
    as [H|(fs & H & Hne)]; rewrite H.
  - split; [now left | reflexivity].
  - split; [right; eauto|].
    unfold shouldLogChanges, as_change_set, not_null, own_keys.
    rewrite Z.geb_leb. apply Z.leb_le.
    destruct fs; [congruence|]. rewrite length_map. simpl length. lia.
Qed.

(** The simple mode of a configuration. *)
Definition simple_mode (cfg : ChangeFormatterOptions) : ChangeFormatterOptions :=
  {| excludeFields := excludeFields cfg;
     meaningfulChangesOnly := Some false;
     maxDepth := maxDepth cfg |}.

(** Meaningful-changes-only never adds a field: a field that the
    formatter reports under a configuration is also reported, with both raw
    values, when [meaningfulChangesOnly] is switched off in it. *)
Theorem meaningful_reports_fewer_fields (newDoc oldDoc : list (string * value))
    (cfg : ChangeFormatterOptions) (k : string) (c : value) :
  result_field (formatChanges same_ref newDoc (Some oldDoc) cfg) k = Some c ->
  result_field (formatChanges same_ref newDoc (Some oldDoc) (simple_mode cfg)) k
  = Some (change_record (get (VObj oldDoc) k) (get (VObj newDoc) k)).
Proof.
  unfold formatChanges. rewrite !for_keys_field by apply unique_NoDup.
  destruct (includes_key k _); [|discriminate].
  unfold format_key.
  change (excludeFields (spread defaultChangeFormatterOptions (simple_mode cfg)))
    with (excludeFields (spread defaultChangeFormatterOptions cfg)).
  change (maxDepth (spread defaultChangeFormatterOptions (simple_mode cfg)))
    with (maxDepth (spread defaultChangeFormatterOptions cfg)).
  change (flag (meaningfulChangesOnly
                  (spread defaultChangeFormatterOptions (simple_mode cfg)))) with false.
  destruct (opt_includes _ k); [discriminate|].
  destruct (same_relationship _ _ _); [discriminate|].
  destruct (flag _).
  - rewrite extractMeaningfulChanges_unfold.
    destruct (0 >? _) eqn:Hgt; [discriminate|].
    destruct (deepEqual _ _ _ _ _); [discriminate | reflexivity].
  - destruct (deepEqual _ _ _ _ _); [discriminate | reflexivity].
Qed.

(** ** What the differ returns *)

(** Inside the differ exclusion works at every level: in the nested
    change map computed for two keyed maps an excluded key never occurs. *)
Theorem excluded_key_absent_in_nested_map (nfs ofs : list (string * value))
    (depth maxDepth : Z) (excl : list string) (k : string) :
  In k excl ->
  result_field
    (extractMeaningfulChanges same_ref (VObj nfs) (VObj ofs) depth maxDepth excl) k
  = None.
Proof.
  intros Hin. apply includes_key_In in Hin.
  rewrite extractMeaningfulChanges_unfold.
  destruct (depth >? maxDepth); [reflexivity|].
  destruct (deepEqual _ _ _ _ _); [reflexivity|]. simpl.
  rewrite for_keys_field by apply unique_NoDup.
  unfold diff_key. rewrite Hin. now destruct (includes_key k (unique _)).
Qed.

(** A keyed map: an object that is neither [null] nor an array. *)
Definition is_keyed_map (v : value) : bool :=
  match v with VObj _ => true | _ => false end.

(** The differ descends into keyed maps only: when either value is not
    a keyed map (a scalar, [null], [undefined] or an array) the result is
    all or nothing, [null] or the whole new value. *)
Theorem differ_all_or_nothing (newValue oldValue : value) (depth maxDepth : Z)
    (excl : list string) :
  is_keyed_map newValue && is_keyed_map oldValue = false ->
  extractMeaningfulChanges same_ref newValue oldValue depth maxDepth excl = VNull
  \/ extractMeaningfulChanges same_ref newValue oldValue depth maxDepth excl = newValue.
Proof.
  intros Hmap. rewrite extractMeaningfulChanges_unfold.
  destruct (depth >? maxDepth); [now left|].
  destruct (deepEqual _ _ _ _ _); [now left|].
  destruct newValue, oldValue; try discriminate Hmap;
    cbn [is_nullish is_object typeof jstype_eqb is_array negb orb andb];
    repeat match goal with
           | |- context [if ?c then _ else _] => destruct c
           end; auto.
Qed.

(** Two arrays of equal length that carry no identifier at all are
    reported as unchanged by the differ, whatever their elements are. *)
Theorem arrays_without_ids_unreported (xs ys : list value) (depth maxDepth : Z)
    (excl : list string) :
  length xs = length ys ->
  ids_of (VArr xs) = [] -> ids_of (VArr ys) = [] ->
  extractMeaningfulChanges same_ref (VArr xs) (VArr ys) depth maxDepth excl = VNull.
Proof.
  intros Hlen Hx Hy. apply same_ids_no_change; [exact Hlen | |];
    now rewrite Hx, Hy.
Qed.

End DifferFacts.

(** ** Concrete snapshots *)

Definition deep_before : list (string * value) :=
  [("a", VObj [("b", VObj [("c", VNum 1)])])].
Definition deep_after : list (string * value) :=
  [("a", VObj [("b", VObj [("c", VNum 2)])])].
Definition depth_one : ChangeFormatterOptions :=
  {| excludeFields := None; meaningfulChangesOnly := Some true; maxDepth := Some 1 |}.

(** C1, as stated, fails: with [maxDepth = 1] the two snapshots differ only
    at field [c], at nesting depth 2, and the field [a] that contains the
    difference is reported as no change at all, not as a replacement. *)
Lemma depth_cutoff_counterexample :
  ~ (exists change,
       result_field (formatChanges no_sharing deep_after (Some deep_before) depth_one) "a"
       = Some change).
Proof. intros [change H]. vm_compute in H. discriminate H. Qed.

Definition wide_before : list (string * value) :=
  [("a", VObj [("b", VObj [("c", VNum 1)]); ("x", VNum 5)]); ("z", VNum 1)].
Definition wide_after : list (string * value) :=
  [("a", VObj [("b", VObj [("c", VNum 2)]); ("x", VNum 5)]); ("z", VNum 1)].

Lemma depth_cutoff_drops_changes_witness :
  extractMeaningfulChanges no_sharing (VNum 2) (VNum 1) 2 1 [] = VNull
  /\ extractMeaningfulChanges no_sharing
       (VObj [("c", VNum 2)]) (VObj [("c", VNum 1)]) 1 1 [] = VNull
  /\ result_field (formatChanges no_sharing wide_after (Some wide_before) depth_one) "a"
     = None
  /\ result_field (formatChanges no_sharing deep_after (Some deep_before) depth_one) "a"
     = None.
Proof.
  destruct (depth_cutoff_drops_changes no_sharing) as (Hcut & Hbound & Hformat).
  split; [|split; [|split]].
  - apply Hcut. lia.
  - apply Hbound. intros k. simpl.
    destruct (String.eqb k "c"); split; reflexivity.
  - apply (Hformat wide_after wide_before depth_one "a"); reflexivity.
  - apply (Hformat deep_after deep_before depth_one "a"); reflexivity.
Defined.




Definition author_set : value := VObj [("author", VObj [("id", VStr "u1")])].
Definition author_unset : value := VObj [("author", VNull)].

(** C4, as stated, fails: the new side refers to [u1] and the old side has
    no identifier, so the identifiers differ, and no change record is
    produced for the key. *)
Lemma reference_added_counterexample :
  ~ (exists change,
       result_field (extractMeaningfulChanges no_sharing author_set author_unset 0 5 [])
         "author" = Some change).
Proof. intros [change H]. vm_compute in H. discriminate H. Qed.

Lemma reference_field_change_witness :
  result_field
    (extractMeaningfulChanges no_sharing
       (VObj [("author", VObj [("id", VStr "u2")])])
       (VObj [("author", VObj [("id", VStr "u1")])]) 0 5 [])
    "author"
  = Some (VObj [("old", VStr "u1"); ("new", VStr "u2")]).
Proof.
  exact (reference_field_change no_sharing
           [("author", VObj [("id", VStr "u2")])]
           [("author", VObj [("id", VStr "u1")])] 0 5 [] "author"
           ltac:(lia) eq_refl eq_refl eq_refl).
Defined.


Definition scenario_before : list (string * value) :=
  [("name", VStr "John"); ("hash", VStr "h1")].
Definition scenario_after : list (string * value) :=
  [("name", VStr "Jane"); ("hash", VStr "h2")].
Definition exclude_hash : ChangeFormatterOptions :=
  {| excludeFields := Some ["hash"]; meaningfulChangesOnly := None; maxDepth := None |}.

Definition account_before : list (string * value) :=
  [("account", VObj [("hash", VStr "h1"); ("plan", VStr "free")])].
Definition account_after : list (string * value) :=
  [("account", VObj [("hash", VStr "h2"); ("plan", VStr "pro")])].

(** What the formatter returns when the excluded [hash] sits one level
    down: the new side is filtered, the old side is the raw previous
    value. *)
Lemma account_change_set :
  formatChanges no_sharing account_after (Some account_before) exclude_hash
  = VObj [("account",
           change_record (VObj [("hash", VStr "h1"); ("plan", VStr "free")])
             (VObj [("plan", VStr "pro")]))].
Proof. vm_compute. reflexivity. Qed.

(** C7, as stated, fails: [hash] is excluded, and the returned change-set
    still holds it, with its previous value, in the old side of the entry
    for [account]. *)
Lemma excluded_name_returned_counterexample :
  ~ (mentions "hash"
       (formatChanges no_sharing account_after (Some account_before) exclude_hash)
     = false).
Proof. vm_compute. discriminate. Qed.

Lemma excluded_field_absent_witness :
  result_field (formatChanges no_sharing scenario_after (Some scenario_before) exclude_hash)
    "hash" = None
  /\ result_field
       (extractMeaningfulChanges no_sharing
          (VObj [("hash", VStr "h2"); ("plan", VStr "pro")])
          (VObj [("hash", VStr "h1"); ("plan", VStr "free")]) 0 5 ["hash"]) "hash"
     = None.
Proof.
  destruct (excluded_field_absent no_sharing scenario_after scenario_before
              exclude_hash ["hash"] "hash" eq_refl ltac:(simpl; now left))
    as [Htop Hnested].
  split; [exact Htop | apply Hnested].
Defined.

Lemma arrays_without_ids_unreported_witness :
  extractMeaningfulChanges no_sharing
    (VArr [VNum 1; VNum 3]) (VArr [VNum 1; VNum 2]) 0 2 [] = VNull
  /\ deepEqual no_sharing (VArr [VNum 1; VNum 3]) (VArr [VNum 1; VNum 2]) 0 2 = false.
Proof.
  split; [|reflexivity].
  apply (arrays_without_ids_unreported no_sharing); reflexivity.
Defined.

(** Scenario A: with [hash] excluded, renaming John to Jane yields the
    change-set [{name: {old: "John", new: "Jane"}}]. *)
Theorem scenario_A (same_ref : value -> value -> bool) :
  formatChanges same_ref scenario_after (Some scenario_before) exclude_hash
  = VObj [("name", change_record (VStr "John") (VStr "Jane"))].
Proof. reflexivity. Qed.

(** An absent previous snapshot is a creation: the new snapshot is returned
    as it is, excluded fields included. *)
Theorem creation_returns_snapshot (same_ref : value -> value -> bool)
    (newDoc : list (string * value)) (cfg : ChangeFormatterOptions) :
  formatChanges same_ref newDoc None cfg = VObj newDoc.
Proof. reflexivity. Qed.

(** ** Instances *)

Lemma null_assignment_unreported_witness :
  result_field
    (formatChanges no_sharing [("status", VNull)] (Some [("status", VStr "active")])
       no_options) "status" = None.
Proof.
  apply (null_assignment_unreported no_sharing [("status", VNull)]
           [("status", VStr "active")] no_options "status"); reflexivity.
Defined.

Lemma added_and_removed_fields_reported_witness :
  result_field
    (formatChanges no_sharing [("b", VNum 1)] (Some [("a", VStr "x")]) no_options) "a"
  = Some (change_record (VStr "x") VUndef)
  /\ result_field
       (formatChanges no_sharing [("b", VNum 1)] (Some [("a", VStr "x")]) no_options) "b"
     = Some (change_record VUndef (VNum 1)).
Proof.
  split.
  - apply (proj1 (added_and_removed_fields_reported no_sharing [("b", VNum 1)]
                    [("a", VStr "x")] no_options "a" (VStr "x")
                    ltac:(simpl; lia) eq_refl ltac:(discriminate)));
      reflexivity.
  - apply (proj2 (added_and_removed_fields_reported no_sharing [("b", VNum 1)]
                    [("a", VStr "x")] no_options "b" (VNum 1)
                    ltac:(simpl; lia) eq_refl ltac:(discriminate)));
      [reflexivity | reflexivity | discriminate].
Defined.

Lemma scalar_field_reported_witness :
  result_field (formatChanges no_sharing scenario_after (Some scenario_before) exclude_hash)
    "name" = Some (change_record (VStr "John") (VStr "Jane")).
Proof.
  exact (scalar_field_reported no_sharing scenario_after scenario_before exclude_hash
           "name" ltac:(simpl; lia) eq_refl eq_refl eq_refl).
Defined.

Lemma change_record_shape_witness :
  (exists newSide,
      change_record (VStr "John") (VStr "Jane")
      = change_record (get (VObj scenario_before) "name") newSide)
  /\ (In "name" (map fst scenario_after) \/ In "name" (map fst scenario_before)).
Proof.
  destruct (change_record_shape no_sharing scenario_after scenario_before exclude_hash
              "name" (change_record (VStr "John") (VStr "Jane")) eq_refl)
    as (H1 & H2 & _).
  split; [exact H1 | exact H2].
Defined.

Lemma meaningful_reports_fewer_fields_witness :
  result_field
    (formatChanges no_sharing scenario_after (Some scenario_before)
       (simple_mode exclude_hash)) "name"
  = Some (change_record (VStr "John") (VStr "Jane")).
Proof.
  exact (meaningful_reports_fewer_fields no_sharing scenario_after scenario_before
           exclude_hash "name" (change_record (VStr "John") (VStr "Jane")) eq_refl).
Defined.

Lemma excluded_key_absent_in_nested_map_witness :
  result_field
    (extractMeaningfulChanges no_sharing
       (VObj [("hash", VStr "h2"); ("name", VStr "Jane")])
       (VObj [("hash", VStr "h1"); ("name", VStr "John")]) 1 2 ["hash"]) "hash"
  = None.
Proof.
  apply (excluded_key_absent_in_nested_map no_sharing). simpl. now left.
Defined.

Lemma differ_all_or_nothing_witness :
  extractMeaningfulChanges no_sharing
    (VArr [VStr "email"; VStr "sms"; VStr "push"]) (VArr [VStr "email"; VStr "sms"]) 1 2 []
  = VNull
  \/ extractMeaningfulChanges no_sharing
       (VArr [VStr "email"; VStr "sms"; VStr "push"]) (VArr [VStr "email"; VStr "sms"]) 1 2 []
     = VArr [VStr "email"; VStr "sms"; VStr "push"].
Proof.
  apply (differ_all_or_nothing no_sharing). reflexivity.
Defined.

Lemma deepEqual_reflexive_symmetric_witness :
  deepEqual no_sharing (VObj [("a", VNum 1); ("b", VNum 2)])
    (VObj [("a", VNum 1); ("b", VNum 2)]) 0 2 = true
  /\ deepEqual no_sharing (VObj [("a", VNum 1); ("b", VNum 2)])
       (VObj [("b", VNum 2); ("a", VNum 1)]) 0 2
     = deepEqual no_sharing (VObj [("b", VNum 2); ("a", VNum 1)])
         (VObj [("a", VNum 1); ("b", VNum 2)]) 0 2.
Proof.
  destruct (deepEqual_reflexive_symmetric no_sharing
              (VObj [("a", VNum 1); ("b", VNum 2)])
              (VObj [("b", VNum 2); ("a", VNum 1)]) 0 2) as (Hrefl & _ & Hsym).
  split; [apply Hrefl | apply Hsym]; reflexivity.
Defined.

(** ** The identifier classifier *)

Lemma is_hex_token (c : ascii) : is_hex c = true -> is_token_char c = true.
Proof.
  destruct c as [[] [] [] [] [] [] [] []]; vm_compute; intros H;
    first [reflexivity | discriminate H].
Qed.

Lemma all_chars_app (p : ascii -> bool) (s t : string) :
  all_chars p (s +:+ t) = all_chars p s && all_chars p t.
Proof.
  induction s as [|c s IH]; simpl; [reflexivity|].
  now rewrite IH, andb_assoc.
Qed.

Lemma length_append (s t : string) :
  String.length (s +:+ t) = (String.length s + String.length t)%nat.
Proof. induction s as [|c s IH]; simpl; [reflexivity | now rewrite IH]. Qed.

Lemma take_hex_spec (n : nat) : forall s rest,
  take_hex n s = Some rest ->
  exists pre, s = pre +:+ rest /\ String.length pre = n
              /\ all_chars is_token_char pre = true.
Proof.
  induction n as [|n IH]; intros s rest; simpl.
  - intros [= <-]. now exists "".
  - destruct s as [|c s]; [discriminate|].
    destruct (is_hex c) eqn:Hc; [|discriminate].
    intros H. apply IH in H as (pre & -> & Hlen & Hall).
    exists (String c pre). simpl. rewrite Hlen, Hall, (is_hex_token c Hc). auto.
Qed.

Lemma hex_groups_token (groups : list nat) : forall s,
  hex_groups groups s = true ->
  all_chars is_token_char s = true
  /\ String.length s = (list_sum groups + (length groups - 1))%nat.
Proof.
  induction groups as [|n groups IH]; intros s; [discriminate|].
  destruct groups as [|m groups].
  - simpl. destruct (take_hex n s) as [rest|] eqn:Ht; [|discriminate].
    destruct rest; [|discriminate]. intros _.
    apply take_hex_spec in Ht as (pre & -> & Hlen & Hall).
    rewrite all_chars_app, length_append, Hall, Hlen. simpl. split; [reflexivity | lia].
  - change (hex_groups (n :: m :: groups) s)
      with (match take_hex n s with
            | Some (String c s') => (N_of_ascii c =? 45)%N && hex_groups (m :: groups) s'
            | _ => false
            end).
    destruct (take_hex n s) as [rest|] eqn:Ht; [|discriminate].
    destruct rest as [|c s']; [discriminate|].
    intros H. apply andb_true_iff in H as [Hdash Hrest].
    apply IH in Hrest as [Hall' Hlen'].
    apply take_hex_spec in Ht as (pre & -> & Hlen & Hall).
    rewrite all_chars_app, length_append, Hall, Hlen.
    cbn [all_chars String.length]. rewrite Hall', Hlen'.
    assert (Hc : is_token_char c = true).
    { unfold is_token_char. rewrite Hdash. now rewrite orb_true_r. }
    rewrite Hc. split; [reflexivity|]. simpl. lia.
Qed.

(** Of the three patterns of [isUUID] the first two add nothing: a string
    is an identifier exactly when it has at least 8 characters, all of them
    letters, digits, ['_'] or ['-']. *)
Theorem isUUID_token_string (str : string) :
  isUUID str = true
  <-> all_chars is_token_char str = true /\ (8 <= String.length str)%nat.
Proof.
  unfold isUUID, uuidRegex, objectIdRegex, genericIdRegex. split.
  - intros H. apply orb_true_iff in H as [H|H]; [apply orb_true_iff in H as [H|H]|].
    + apply hex_groups_token in H as [Hall Hlen]. split; [exact Hall|].
      rewrite Hlen. simpl. lia.
    + apply hex_groups_token in H as [Hall Hlen]. split; [exact Hall|].
      rewrite Hlen. simpl. lia.
    + apply andb_true_iff in H as [Hall Hlen]. split; [exact Hall|].
      now apply Nat.leb_le.
  - intros [Hall Hlen]. rewrite Hall. apply Nat.leb_le in Hlen. rewrite Hlen.
    now rewrite orb_true_r.
Qed.

(** ** The summary line *)

(** [createChangeSummary] answers "No changes" exactly for the [null]
    change-set (a map, even an empty one, gets a counted summary); on what
    [formatChanges] returns against a present previous snapshot this is
    exactly when [shouldLogChanges] rejects the change-set. *)
Theorem createChangeSummary_no_changes :
  (forall changes : option (list (string * value)),
      createChangeSummary changes = "No changes" <-> changes = None)
  /\ (forall (same_ref : value -> value -> bool) (newDoc oldDoc : list (string * value))
             (cfg : ChangeFormatterOptions),
        let changes := as_change_set (formatChanges same_ref newDoc (Some oldDoc) cfg) in
        createChangeSummary changes = "No changes"
        <-> shouldLogChanges changes None = false).
Proof.
  assert (Hnull : forall changes : option (list (string * value)),
             createChangeSummary changes = "No changes" <-> changes = None).
  { intros [fields|]; simpl; [|tauto].
    split; [|discriminate]. intros H. apply (f_equal String.length) in H.
    rewrite !length_append in H. simpl in H. lia. }
  split; [exact Hnull|].
  intros same_ref newDoc oldDoc cfg changes. subst changes.
  etransitivity; [apply Hnull|].
  unfold formatChanges.
  destruct (finish_nonempty
              (format_key same_ref (spread defaultChangeFormatterOptions cfg)
                 (VObj newDoc) (VObj oldDoc))
              (unique (own_keys (VObj newDoc) ++ own_keys (VObj oldDoc))))
    as [H|(fs & H & Hne)]; rewrite H; simpl.
  - tauto.
  - destruct fs as [|p fs]; [congruence|]. split; [discriminate|].
    unfold shouldLogChanges, own_keys. rewrite Z.geb_leb, length_map.
    intros Hs. apply Z.leb_gt in Hs. simpl length in Hs. lia.
Qed.

End FormatterFacts.

(** * Properties of the plugin *)

Module PluginFacts.
Import Js ChangeFormatter AuditContext Plugin.

(** The token of the request of a world. *)
Definition world_token (w : World) : option string :=
  request_id (tracking (request w)).

(** The entry concerns the document [(slug, documentId)]. *)
Definition entry_about (slug documentId : string) (e : AuditLogEntry) : Prop :=
  entry_collection e = slug /\ entry_documentId e = documentId.

(** Two events concern the same document. *)
Definition same_document (first step : HookTime * HookEvent) : bool :=
  String.eqb (event_slug (snd first)) (event_slug (snd step))
  && String.eqb (event_documentId (snd first)) (event_documentId (snd step)).

(** The decisions the hooks take along a run. *)
Fixpoint decisions (same_ref : value -> value -> bool) (pluginOptions : AuditLogOptions)
    (w : World) (steps : list (HookTime * HookEvent)) : list bool :=
  match steps with
  | [] => []
  | step :: steps' =>
      hook_decision pluginOptions w step
      :: decisions same_ref pluginOptions (run_hook same_ref pluginOptions w step) steps'
  end.

(** A request that no hook has seen yet, at the time of its first event. *)
Definition fresh_for (w : World) (first : HookTime * HookEvent) : Prop :=
  world_token w = None
  /\ getContext (manager w) (generateRequestId (clock (fst first))) = None.

(** The exclusion list the [afterChange] hook works with. *)
Definition hook_excluded (pluginOptions : AuditLogOptions) : list string :=
  (or_else (columnsToIgnore pluginOptions) []
   ++ or_else (excludeFields_of (changeFormatter pluginOptions)) [])%list.

(** ** Option merging *)

Lemma merged_columns (options : AuditLogOptions) :
  or_else (columnsToIgnore (mergeOptions options)) []
  = if flag (allowSystemFieldOverride options)
    then or_else (columnsToIgnore options) systemFields
    else (systemFields ++ or_else (columnsToIgnore options) [])%list.
Proof.
  unfold mergeOptions. cbn [columnsToIgnore or_else defaultOptions over].
  now destruct (flag _), (columnsToIgnore options).
Qed.

Lemma merged_excludes (options : AuditLogOptions) :
  or_else (excludeFields_of (changeFormatter (mergeOptions options))) []
  = if flag (allowSystemFieldOverride options)
    then or_else (excludeFields_of (changeFormatter options)) systemFields
    else (systemFields ++ or_else (excludeFields_of (changeFormatter options)) [])%list.
Proof.
  unfold mergeOptions.
  cbn [changeFormatter excludeFields_of excludeFields or_else defaultOptions over].
  now destruct (flag _), (excludeFields_of (changeFormatter options)).
Qed.

(** Whatever the user configures, the fields named in [columnsToIgnore] or
    in [changeFormatter.excludeFields] are excluded by the hook, and unless
    [allowSystemFieldOverride] is set so is every system field. *)
Theorem system_fields_stay_excluded (options : AuditLogOptions) (f : string) :
  In f (or_else (columnsToIgnore options) [])
  \/ In f (or_else (excludeFields_of (changeFormatter options)) [])
  \/ (flag (allowSystemFieldOverride options) = false /\ In f systemFields) ->
  In f (hook_excluded (mergeOptions options)).
Proof.
  unfold hook_excluded. rewrite merged_columns, merged_excludes.
  destruct (flag (allowSystemFieldOverride options));
    rewrite ?in_app_iff; intros [H|[H|[Hf H]]]; try discriminate; try tauto.
  - left. destruct (columnsToIgnore options); [exact H | destruct H].
  - right. destruct (excludeFields_of (changeFormatter options)); [exact H | destruct H].
Qed.

Lemma system_fields_stay_excluded_witness :
  In "password"
    (hook_excluded
       (mergeOptions
          {| collections := Some ["users"]; includeAuth := None;
             columnsToIgnore := Some ["internalNotes"];
             changeFormatter := Some {| excludeFields := Some ["anotherField"];
                                        meaningfulChangesOnly := None;
                                        maxDepth := Some 3 |};
             allowCascading := None; maxCascadeDepth := None;
             allowSystemFieldOverride := None |})).
Proof.
  apply system_fields_stay_excluded. right. right. split; [reflexivity|].
  unfold systemFields. simpl. tauto.
Defined.

(** ** One hook call *)

Lemma generated_id_truthy (clock : Clock) :
  request_id {| auditRequestId := Some (generateRequestId clock) |}
  = Some (generateRequestId clock).
Proof. reflexivity. Qed.

(** The first event of a fresh request passes and becomes the source. *)
Lemma track_fresh pluginOptions mgr req clock slug documentId :
  request_id req = None ->
  getContext mgr (generateRequestId clock) = None ->
  track pluginOptions mgr req clock slug documentId
  = (fst (createContext mgr clock (generateRequestId clock) (Some slug) (Some documentId)),
     {| auditRequestId := Some (generateRequestId clock) |}, true).
Proof.
  intros Hreq Hfresh. unfold track. rewrite Hreq. simpl.
  unfold shouldLogAuditOperation, markDirectOperation. rewrite generated_id_truthy.
  unfold shouldLogOperation. unfold getContext in Hfresh. rewrite Hfresh. simpl.
  unfold getContext. now rewrite Hfresh.
Qed.

Lemma track_with_token pluginOptions mgr req clock slug documentId rid :
  request_id req = Some rid ->
  track pluginOptions mgr req clock slug documentId
  = let shouldLog :=
      shouldLogOperation mgr rid slug documentId
        (Build_LogOptions (Plugin.allowCascading pluginOptions)
           (Plugin.maxCascadeDepth pluginOptions)) in
    if shouldLog
    then (markDirectOperation mgr clock req slug documentId, req, true)
    else (markAsCascading mgr rid slug documentId, req, false).
Proof.
  intros Hreq. unfold track. rewrite Hreq. simpl.
  unfold shouldLogAuditOperation, markCascadingOperation. rewrite Hreq.
  now destruct (shouldLogOperation _ _ _ _ _).
Qed.

(** What a hook call does to the world: the tracker moves as [track] says,
    the user stays, and at most one entry, about the event's document, is
    appended, none when the decision is [false]. *)
Lemma run_hook_effect same_ref pluginOptions w step :
  let r := track pluginOptions (manager w) (tracking (request w)) (clock (fst step))
             (event_slug (snd step)) (event_documentId (snd step)) in
  manager (run_hook same_ref pluginOptions w step) = fst (fst r)
  /\ tracking (request (run_hook same_ref pluginOptions w step)) = snd (fst r)
  /\ exists added,
       audit_logs (run_hook same_ref pluginOptions w step) = (audit_logs w ++ added)%list
       /\ Forall (entry_about (event_slug (snd step)) (event_documentId (snd step))) added
       /\ (snd r = false -> added = []).
Proof.
  assert (Hnone : forall (w' : World) slug documentId (b : bool),
    audit_logs w' = audit_logs w ->
    exists added, audit_logs w' = (audit_logs w ++ added)%list
      /\ Forall (entry_about slug documentId) added /\ (b = false -> added = [])).
  { intros w' slug documentId b ->. exists []. rewrite app_nil_r. auto. }
  assert (Hone : forall (w' : World) slug documentId e,
    audit_logs w' = (audit_logs w ++ [e])%list -> entry_about slug documentId e ->
    exists added, audit_logs w' = (audit_logs w ++ added)%list
      /\ Forall (entry_about slug documentId) added /\ (true = false -> added = [])).
  { intros w' slug documentId e -> He. exists [e]. repeat split; auto. discriminate. }
  destruct step as [t [slug operation doc previousDoc | slug doc]];
    unfold run_hook, afterChange, afterDelete; cbn [fst snd event_slug event_documentId];
    destruct (track _ _ _ _ _ _) as [[mgr req] shouldLog]; cbn [fst snd];
    destruct shouldLog; cbn [negb].
  - destruct (_ && is_some previousDoc).
    + destruct (negb (shouldLogChanges _ _));
        [split; [reflexivity | split; [reflexivity | now apply Hnone]]|].
      destruct (_ && _ && _);
        [split; [reflexivity | split; [reflexivity | now apply Hnone]]|].
      split; [reflexivity | split; [reflexivity|]].
      eapply Hone; [reflexivity | split; reflexivity].
    + split; [reflexivity | split; [reflexivity|]].
      eapply Hone; [reflexivity | split; reflexivity].
  - split; [reflexivity | split; [reflexivity | now apply Hnone]].
  - split; [reflexivity | split; [reflexivity|]].
    eapply Hone; [reflexivity | split; reflexivity].
  - split; [reflexivity | split; [reflexivity | now apply Hnone]].
Qed.

Lemma hook_world same_ref pluginOptions w step :
  manager (run_hook same_ref pluginOptions w step)
  = fst (fst (track pluginOptions (manager w) (tracking (request w)) (clock (fst step))
                (event_slug (snd step)) (event_documentId (snd step))))
  /\ world_token (run_hook same_ref pluginOptions w step)
     = request_id (snd (fst (track pluginOptions (manager w) (tracking (request w))
                               (clock (fst step)) (event_slug (snd step))
                               (event_documentId (snd step))))).
Proof.
  destruct (run_hook_effect same_ref pluginOptions w step) as (Hm & Ht & _).
  unfold world_token. now rewrite Hm, Ht.
Qed.

(** ** A request with cascading switched off *)

Lemma decision_when_off mgr rid c0 id0 c d (a : option bool) (m : option Z) :
  TrackerFacts.sourced_at mgr rid c0 id0 -> flag a = false ->
  shouldLogOperation mgr rid c d (Build_LogOptions a m)
  = String.eqb c0 c && String.eqb id0 d.
Proof.
  intros (ctx & Hctx & Hc & Hd) Ha. unfold shouldLogOperation.
  rewrite Hctx, Hc, Hd. simpl. unfold flag in Ha.
  destruct (String.eqb c0 c && String.eqb id0 d); [reflexivity|].
  now destruct a as [[]|].
Qed.

Lemma step_when_off same_ref pluginOptions w step rid c0 id0 :
  flag (Plugin.allowCascading pluginOptions) = false ->
  world_token w = Some rid ->
  TrackerFacts.sourced_at (manager w) rid c0 id0 ->
  hook_decision pluginOptions w step
  = String.eqb c0 (event_slug (snd step)) && String.eqb id0 (event_documentId (snd step))
  /\ world_token (run_hook same_ref pluginOptions w step) = Some rid
  /\ TrackerFacts.sourced_at (manager (run_hook same_ref pluginOptions w step)) rid c0 id0.
Proof.
  intros Hoff Htok Hsrc.
  destruct (hook_world same_ref pluginOptions w step) as [Hm Ht].
  unfold hook_decision. rewrite Hm, Ht.
  rewrite (track_with_token _ _ _ _ _ _ rid Htok).
  rewrite (decision_when_off _ _ _ _ _ _ _ _ Hsrc Hoff). cbv zeta.
  destruct (String.eqb c0 _ && String.eqb id0 _) eqn:Hsame; cbn [fst snd].
  - repeat split; [exact Htok|].
    apply andb_true_iff in Hsame as [Hc Hd].
    apply String.eqb_eq in Hc, Hd. rewrite <- Hc, <- Hd.
    now apply TrackerFacts.markDirect_sourced.
  - repeat split; [exact Htok|]. now apply TrackerFacts.markAsCascading_sourced.
Qed.

Lemma first_step same_ref pluginOptions w first :
  fresh_for w first ->
  hook_decision pluginOptions w first = true
  /\ world_token (run_hook same_ref pluginOptions w first)
     = Some (generateRequestId (clock (fst first)))
  /\ contexts (manager (run_hook same_ref pluginOptions w first))
       !! generateRequestId (clock (fst first))
     = Some {| sourceCollection := Some (event_slug (snd first));
               sourceDocumentId := Some (event_documentId (snd first));
               isDirectOperation := Some true;
               timestamp := Some (now (clock (fst first)));
               operationStack := Some [] |}.
Proof.
  intros [Htok Hfresh].
  destruct (hook_world same_ref pluginOptions w first) as [Hm Ht].
  unfold hook_decision. rewrite Hm, Ht.
  rewrite (track_fresh _ _ _ _ _ _ Htok Hfresh). cbn [fst snd].
  repeat split. simpl. apply lookup_insert_eq.
Qed.

Lemma run_when_off same_ref pluginOptions rid c0 id0 first steps :
  flag (Plugin.allowCascading pluginOptions) = false ->
  event_slug (snd first) = c0 -> event_documentId (snd first) = id0 ->
  forall w,
    world_token w = Some rid ->
    TrackerFacts.sourced_at (manager w) rid c0 id0 ->
    decisions same_ref pluginOptions w steps = map (same_document first) steps
    /\ exists added,
         audit_logs (run_hooks same_ref pluginOptions w steps)
         = (audit_logs w ++ added)%list
         /\ Forall (entry_about c0 id0) added.
Proof.
  intros Hoff Hc0 Hid0.
  induction steps as [|step steps IH]; intros w Htok Hsrc.
  - split; [reflexivity|]. exists []. now rewrite app_nil_r.
  - destruct (step_when_off same_ref pluginOptions w step rid c0 id0 Hoff Htok Hsrc)
      as (Hdec & Htok' & Hsrc').
    destruct (IH _ Htok' Hsrc') as (Hrest & added & Hlogs & Habout).
    destruct (run_hook_effect same_ref pluginOptions w step)
      as (_ & _ & added0 & Hlogs0 & Habout0 & Hnone).
    split.
    + simpl. rewrite Hrest, Hdec. unfold same_document. now rewrite Hc0, Hid0.
    + exists (added0 ++ added)%list. split.
      * unfold run_hooks in *. simpl. rewrite Hlogs, Hlogs0. now rewrite app_assoc.
      * apply Forall_app. split; [|exact Habout].
        fold (hook_decision pluginOptions w step) in Hnone. rewrite Hdec in Hnone.
        destruct (String.eqb c0 _ && String.eqb id0 _) eqn:Hsame.
        -- apply andb_true_iff in Hsame as [Hc Hd].
           apply String.eqb_eq in Hc, Hd. now rewrite Hc, Hd.
        -- rewrite Hnone by reflexivity. constructor.
Qed.

(** With cascading switched off (the default), the hooks of a request that
    starts fresh pass its first event and, after it, exactly the events on
    the same document; every audit entry written during the request
    concerns that first document. *)
Theorem cascading_off_logs_first_document (same_ref : value -> value -> bool)
    (pluginOptions : AuditLogOptions) (w : World)
    (first : HookTime * HookEvent) (steps : list (HookTime * HookEvent)) :
  flag (Plugin.allowCascading pluginOptions) = false ->
  fresh_for w first ->
  decisions same_ref pluginOptions w (first :: steps)
  = true :: map (same_document first) steps
  /\ exists added,
       audit_logs (run_hooks same_ref pluginOptions w (first :: steps))
       = (audit_logs w ++ added)%list
       /\ Forall (entry_about (event_slug (snd first)) (event_documentId (snd first)))
            added.
Proof.
  intros Hoff Hfresh.
  destruct (first_step same_ref pluginOptions w first Hfresh) as (Hdec & Htok & Hctx).
  destruct (run_hook_effect same_ref pluginOptions w first)
    as (_ & _ & added0 & Hlogs0 & Habout0 & _).
  destruct (run_when_off same_ref pluginOptions _ _ _ first steps Hoff eq_refl eq_refl
              (run_hook same_ref pluginOptions w first) Htok)
    as (Hrest & added & Hlogs & Habout).
  { eexists. split; [exact Hctx | split; reflexivity]. }
  split.
  - simpl. now rewrite Hdec, Hrest.
  - exists (added0 ++ added)%list. split.
    + unfold run_hooks in *. simpl. rewrite Hlogs, Hlogs0. now rewrite app_assoc.
    + apply Forall_app. now split.
Qed.

(** ** A request with cascading switched on *)

(** The token's context exists and its stack is empty. *)
Definition stack_empty (mgr : AuditContextManager) (rid : string) : Prop :=
  exists ctx, contexts mgr !! rid = Some ctx /\ operationStack ctx = Some [].

Lemma step_when_on same_ref pluginOptions w step rid :
  flag (Plugin.allowCascading pluginOptions) = true ->
  0 <= or_else (Plugin.maxCascadeDepth pluginOptions) 0 ->
  world_token w = Some rid ->
  stack_empty (manager w) rid ->
  hook_decision pluginOptions w step = true
  /\ world_token (run_hook same_ref pluginOptions w step) = Some rid
  /\ stack_empty (manager (run_hook same_ref pluginOptions w step)) rid.
Proof.
  intros Hon Hdepth Htok (ctx & Hctx & Hstack).
  destruct (hook_world same_ref pluginOptions w step) as [Hm Ht].
  unfold hook_decision. rewrite Hm, Ht.
  rewrite (track_with_token _ _ _ _ _ _ rid Htok).
  assert (Hlog : shouldLogOperation (manager w) rid (event_slug (snd step))
                   (event_documentId (snd step))
                   (Build_LogOptions (Plugin.allowCascading pluginOptions)
                      (Plugin.maxCascadeDepth pluginOptions)) = true).
  { unfold shouldLogOperation. rewrite Hctx, Hstack. simpl.
    destruct (_ && _); [reflexivity|].
    unfold flag in Hon. destruct (Plugin.allowCascading pluginOptions) as [[]|];
      try discriminate. simpl.
    destruct (Plugin.maxCascadeDepth pluginOptions) as [N|]; simpl in *; [|reflexivity].
    destruct (N =? 0)%Z eqn:HN; [reflexivity|].
    apply Z.eqb_neq in HN. change (Z.of_nat 0) with 0%Z.
    destruct (0 >=? N)%Z eqn:Hge; [|reflexivity].
    rewrite Z.geb_leb in Hge. apply Z.leb_le in Hge. lia. }
  rewrite Hlog. cbv zeta. cbn [fst snd]. repeat split; [exact Htok|].
  unfold markDirectOperation, getContext. unfold world_token in Htok.
  rewrite Htok, Hctx.
  eexists. split; [apply lookup_insert_eq | exact Hstack].
Qed.

Lemma run_when_on same_ref pluginOptions rid steps :
  flag (Plugin.allowCascading pluginOptions) = true ->
  0 <= or_else (Plugin.maxCascadeDepth pluginOptions) 0 ->
  forall w,
    world_token w = Some rid -> stack_empty (manager w) rid ->
    decisions same_ref pluginOptions w steps = map (fun _ => true) steps
    /\ stack_empty (manager (run_hooks same_ref pluginOptions w steps)) rid.
Proof.
  intros Hon Hdepth. induction steps as [|step steps IH]; intros w Htok Hempty.
  - now split.
  - destruct (step_when_on same_ref pluginOptions w step rid Hon Hdepth Htok Hempty)
      as (Hdec & Htok' & Hempty').
    destruct (IH _ Htok' Hempty') as [Hrest Hfinal].
    split; [simpl; now rewrite Hdec, Hrest | exact Hfinal].
Qed.

(** With cascading switched on and [maxCascadeDepth] unset or not
    negative, the hooks of a request that starts fresh pass every event,
    whatever the depth is: a passed mutation is recorded as direct, so the
    operation stack stays empty and the depth limit is never reached. *)
Theorem cascading_on_logs_every_event (same_ref : value -> value -> bool)
    (pluginOptions : AuditLogOptions) (w : World)
    (first : HookTime * HookEvent) (steps : list (HookTime * HookEvent)) :
  flag (Plugin.allowCascading pluginOptions) = true ->
  0 <= or_else (Plugin.maxCascadeDepth pluginOptions) 0 ->
  fresh_for w first ->
  decisions same_ref pluginOptions w (first :: steps)
  = map (fun _ => true) (first :: steps)
  /\ stack_empty (manager (run_hooks same_ref pluginOptions w (first :: steps)))
       (generateRequestId (clock (fst first))).
Proof.
  intros Hon Hdepth Hfresh.
  destruct (first_step same_ref pluginOptions w first Hfresh) as (Hdec & Htok & Hctx).
  destruct (run_when_on same_ref pluginOptions _ steps Hon Hdepth
              (run_hook same_ref pluginOptions w first) Htok)
    as [Hrest Hfinal].
  { eexists. split; [exact Hctx | reflexivity]. }
  split; [simpl; now rewrite Hdec, Hrest | exact Hfinal].
Qed.

(** ** What an entry holds *)

Lemma update_action (operation : string) :
  operation <> "create" ->
  (if String.eqb operation "create" then "create" else "update") = "update".
Proof. intros H. apply String.eqb_neq in H. now rewrite H. Qed.

Lemma hook_formatter_excludes same_ref pluginOptions doc prev f :
  In f (hook_excluded pluginOptions) ->
  FormatterFacts.result_field
    (formatChanges same_ref doc (Some prev) (formatterOptions pluginOptions)) f = None.
Proof.
  intros Hin. apply FormatterFacts.formatChanges_field.
  unfold format_key, formatterOptions. cbn [spread excludeFields opt_includes].
  fold (hook_excluded pluginOptions).
  now rewrite (proj2 (FormatterFacts.includes_key_In f _) Hin).
Qed.

(** An entry that the [afterChange] hook writes for an update never shows a
    change of a field of the hook's exclusion list. *)
Theorem update_entry_hides_excluded (same_ref : value -> value -> bool)
    (pluginOptions : AuditLogOptions) (slug : string) (w : World) (t : HookTime)
    (operation : string) (doc : list (string * value))
    (previousDoc : option (list (string * value))) (f : string) (e : AuditLogEntry) :
  operation <> "create" ->
  In f (hook_excluded pluginOptions) ->
  In e (audit_logs (afterChange same_ref pluginOptions slug w t operation doc previousDoc)) ->
  In e (audit_logs w) \/ FormatterFacts.result_field (entry_changes e) f = None.
Proof.
  intros Hop Hf. unfold afterChange. rewrite (update_action operation Hop).
  destruct (track _ _ _ _ _ _) as [[mgr req] shouldLog].
  destruct shouldLog; cbn [negb]; [|now left].
  change (String.eqb "update" "update") with true. cbn [andb].
  destruct previousDoc as [prev|]; cbn [is_some].
  - destruct (negb (shouldLogChanges _ _)); [now left|].
    destruct (_ && _ && _); [now left|].
    cbn [write_entry audit_logs tracked]. rewrite in_app_iff.
    intros [H|[<-|[]]]; [now left | right]. cbn [entry_changes].
    now apply hook_formatter_excludes.
  - cbn [write_entry audit_logs tracked]. rewrite in_app_iff.
    intros [H|[<-|[]]]; [now left | now right].
Qed.

(** When the [afterChange] hook passes an update that comes with its
    previous document, it writes one entry holding the change-set of
    [formatChanges] if that is not [null], and nothing otherwise; an update
    that leaves a document holding no [NaN] as it was writes nothing. *)
Theorem update_written_iff_changed (same_ref : value -> value -> bool)
    (pluginOptions : AuditLogOptions) (slug : string) (w : World) (t : HookTime)
    (operation : string) (doc prev : list (string * value)) :
  operation <> "create" ->
  let changes := formatChanges same_ref doc (Some prev) (formatterOptions pluginOptions) in
  (hook_decision pluginOptions w (t, Changed slug operation doc (Some prev)) = true ->
   audit_logs (afterChange same_ref pluginOptions slug w t operation doc (Some prev))
   = (audit_logs w
      ++ if not_null changes
         then [{| entry_collection := slug;
                  entry_action := "update";
                  entry_documentId := documentId_of doc (Some prev);
                  entry_timestamp := iso_now t;
                  entry_user := get (user (request w)) "id";
                  entry_changes := changes |}]
         else [])%list)
  /\ (nan_free (VObj doc) = true ->
      audit_logs (afterChange same_ref pluginOptions slug w t operation doc (Some doc))
      = audit_logs w).
Proof.
  intros Hop changes. split.
  - unfold hook_decision, afterChange. cbn [fst snd event_slug event_documentId clock].
    rewrite (update_action operation Hop).
    destruct (track _ _ _ _ _ _) as [[mgr req] shouldLog]. cbn [snd].
    intros ->. cbn [negb]. change (String.eqb "update" "update") with true.
    cbn [andb is_some]. fold changes.
    destruct (FormatterFacts.formatChanges_null_or_nonempty same_ref doc prev
                (formatterOptions pluginOptions)) as [H|(fs & H & Hne)];
      fold changes in H; rewrite H.
    + cbn. now rewrite app_nil_r.
    + destruct fs as [|p fs]; [congruence|].
      assert (Hlog : shouldLogChanges (as_change_set (VObj (p :: fs))) None = true).
      { unfold shouldLogChanges, as_change_set, own_keys.
        rewrite Z.geb_leb, length_map. apply Z.leb_le. simpl length. lia. }
      rewrite Hlog. reflexivity.
  - intros Hnan. unfold afterChange. rewrite (update_action operation Hop).
    destruct (track _ _ _ _ _ _) as [[mgr req] shouldLog].
    destruct shouldLog; cbn [negb]; [|reflexivity].
    change (String.eqb "update" "update") with true. cbn [andb is_some].
    rewrite (FormatterFacts.formatChanges_unchanged same_ref doc _ Hnan). reflexivity.
Qed.

(** When a hook passes a creation or a deletion it writes one entry that
    holds the whole document, the fields of the exclusion lists included. *)
Theorem create_and_delete_store_document (same_ref : value -> value -> bool)
    (pluginOptions : AuditLogOptions) (slug : string) (w : World) (t : HookTime)
    (doc : list (string * value)) (previousDoc : option (list (string * value))) :
  (hook_decision pluginOptions w (t, Changed slug "create" doc previousDoc) = true ->
   audit_logs (afterChange same_ref pluginOptions slug w t "create" doc previousDoc)
   = (audit_logs w
      ++ [{| entry_collection := slug;
             entry_action := "create";
             entry_documentId := documentId_of doc previousDoc;
             entry_timestamp := iso_now t;
             entry_user := get (user (request w)) "id";
             entry_changes := VObj doc |}])%list)
  /\ (hook_decision pluginOptions w (t, Deleted slug doc) = true ->
      audit_logs (afterDelete pluginOptions slug w t doc)
      = (audit_logs w
         ++ [{| entry_collection := slug;
                entry_action := "delete";
                entry_documentId := to_String (nullish_or (get (VObj doc) "id") (VStr ""));
                entry_timestamp := iso_now t;
                entry_user := get (user (request w)) "id";
                entry_changes := VObj doc |}])%list).
Proof.
  split; unfold hook_decision, afterChange, afterDelete;
    cbn [fst snd event_slug event_documentId clock];
    destruct (track _ _ _ _ _ _) as [[mgr req] shouldLog]; cbn [snd];
    intros ->; reflexivity.
Qed.

(** ** Instances *)

Definition world0 : World := {|
  manager := empty_manager;
  request := {| tracking := {| auditRequestId := None |};
                user := VObj [("id", VStr "admin")] |};
  audit_logs := []
|}.

Definition time0 : HookTime :=
  {| clock := TrackerFacts.clock0; iso_now := "2025-09-15T07:30:44.474Z" |}.

Definition contract_c1 : list (string * value) :=
  [("id", VStr "c1"); ("name", VStr "Updated Contract"); ("hash", VStr "h2")].
Definition contract_c1_before : list (string * value) :=
  [("id", VStr "c1"); ("name", VStr "Test Contract"); ("hash", VStr "h1")].
Definition client_cl1 : list (string * value) :=
  [("id", VStr "cl1"); ("email", VStr "updated@example.com")].
Definition client_cl1_before : list (string * value) :=
  [("id", VStr "cl1"); ("email", VStr "client@example.com")].

Definition contract_then_client : list (HookTime * HookEvent) :=
  [(time0, Changed "contracts" "update" contract_c1 (Some contract_c1_before));
   (time0, Changed "clients" "update" client_cl1 (Some client_cl1_before));
   (time0, Deleted "contracts" contract_c1)].

Definition cascading_on : AuditLogOptions :=
  mergeOptions {| collections := Some ["contracts"; "clients"]; includeAuth := None;
                  columnsToIgnore := None; changeFormatter := None;
                  allowCascading := Some true; maxCascadeDepth := Some 1;
                  allowSystemFieldOverride := None |}.

Lemma cascading_off_logs_first_document_witness :
  decisions no_sharing defaultOptions world0 contract_then_client = [true; false; true].
Proof.
  exact (proj1 (cascading_off_logs_first_document no_sharing defaultOptions world0
                  (time0, Changed "contracts" "update" contract_c1 (Some contract_c1_before))
                  [(time0, Changed "clients" "update" client_cl1 (Some client_cl1_before));
                   (time0, Deleted "contracts" contract_c1)]
                  eq_refl (conj eq_refl eq_refl))).
Defined.

Lemma cascading_on_logs_every_event_witness :
  decisions no_sharing cascading_on world0 contract_then_client = [true; true; true].
Proof.
  exact (proj1 (cascading_on_logs_every_event no_sharing cascading_on world0
                  (time0, Changed "contracts" "update" contract_c1 (Some contract_c1_before))
                  [(time0, Changed "clients" "update" client_cl1 (Some client_cl1_before));
                   (time0, Deleted "contracts" contract_c1)]
                  eq_refl ltac:(simpl; lia) (conj eq_refl eq_refl))).
Defined.

Definition contract_entry : AuditLogEntry := {|
  entry_collection := "contracts";
  entry_action := "update";
  entry_documentId := "c1";
  entry_timestamp := iso_now time0;
  entry_user := VStr "admin";
  entry_changes :=
    VObj [("name", change_record (VStr "Test Contract") (VStr "Updated Contract"))]
|}.

Lemma update_entry_hides_excluded_witness :
  In contract_entry
    (audit_logs (afterChange no_sharing (mergeOptions defaultOptions) "contracts"
                   world0 time0 "update" contract_c1 (Some contract_c1_before)))
  /\ (In contract_entry (audit_logs world0)
      \/ FormatterFacts.result_field (entry_changes contract_entry) "hash" = None).
Proof.
  assert (Hin : In contract_entry
            (audit_logs (afterChange no_sharing (mergeOptions defaultOptions) "contracts"
                           world0 time0 "update" contract_c1 (Some contract_c1_before))))
    by (left; reflexivity).
  split; [exact Hin|].
  apply (update_entry_hides_excluded no_sharing (mergeOptions defaultOptions) "contracts"
           world0 time0 "update" contract_c1 (Some contract_c1_before) "hash"
           contract_entry).
  - discriminate.
  - unfold hook_excluded, systemFields. simpl. tauto.
  - exact Hin.
Defined.

Lemma update_written_iff_changed_witness :
  map entry_changes
    (audit_logs (afterChange no_sharing (mergeOptions defaultOptions) "contracts"
                   world0 time0 "update" contract_c1 (Some contract_c1_before)))
  = [VObj [("name", change_record (VStr "Test Contract") (VStr "Updated Contract"))]]
  /\ audit_logs (afterChange no_sharing (mergeOptions defaultOptions) "contracts"
                   world0 time0 "update" contract_c1 (Some contract_c1))
     = [].
Proof.
  destruct (update_written_iff_changed no_sharing (mergeOptions defaultOptions)
              "contracts" world0 time0 "update" contract_c1 contract_c1_before
              ltac:(discriminate)) as [Hwritten _].
  destruct (update_written_iff_changed no_sharing (mergeOptions defaultOptions)
              "contracts" world0 time0 "update" contract_c1 contract_c1
              ltac:(discriminate)) as [_ Hsame].
  split.
  - rewrite (Hwritten eq_refl). reflexivity.
  - apply Hsame. reflexivity.
Defined.

Lemma create_and_delete_store_document_witness :
  map entry_changes
    (audit_logs (afterChange no_sharing (mergeOptions defaultOptions) "contracts"
                   world0 time0 "create" contract_c1 None))
  = [VObj contract_c1].
Proof.
  rewrite (proj1 (create_and_delete_store_document no_sharing
                    (mergeOptions defaultOptions) "contracts" world0 time0
                    contract_c1 None) eq_refl).
  reflexivity.
Defined.

End PluginFacts.
